(** * Receipt backend: store and HTTP routes

    A shallow embedding of [server/storage.ts] (the in-memory store and the
    Express route handlers that share the file) and of the zod schemas
    [UserSchema], [ReceiptItemSchema] and [ReceiptSchema] with numeric
    identifiers, the ones the store's signatures ([id: number]) type-check
    against.

    Conventions of the embedding:
    - a JavaScript string is a [string] read as UTF-8 bytes;
    - a JavaScript number is a [number]: NaN, an infinity, or a finite
      rational (every finite double is one);
    - [req.body] is an arbitrary JavaScript [value]: the body parser is
      installed outside these sources;
    - [nanoid()] and [new Date()] read an environment [Env]; the store
      counts how many draws and clock reads were made;
    - [res.json(x)] is recorded as the value handed to it, before
      serialisation. *)

From Stdlib Require Import ZArith QArith Ascii String List Bool Lia.
From stdpp Require Import base option list strings pretty gmap.

Local Open Scope string_scope.
Local Open Scope list_scope.
Local Open Scope Z_scope.

(** ** Numbers *)

Inductive number : Type :=
| NaN
| Infinity (negative : bool)
| Fin (q : Q).

(** [a === b] on numbers: NaN differs from everything, itself included. *)
Definition strict_eq (a b : number) : bool :=
  match a, b with
  | Fin x, Fin y => Qeq_bool x y
  | Infinity s, Infinity t => Bool.eqb s t
  | _, _ => false
  end.

Definition isNaN (a : number) : bool :=
  match a with NaN => true | _ => false end.

Definition of_Z (z : Z) : number := Fin (inject_Z z).

(** The number value of a mathematical integer: round to nearest, ties to
    even, on a 53-bit significand; overflow gives an infinity. *)
Definition to_double (z : Z) : number :=
  let a := Z.abs z in
  if a <? 2 ^ 53 then of_Z z
  else
    let e := Z.log2 a - 52 in
    let q := Z.shiftr a e in
    let r := a - Z.shiftl q e in
    let half := Z.shiftl 1 (e - 1) in
    let q' := if (half <? r) || ((r =? half) && Z.odd q) then q + 1 else q in
    let m := Z.shiftl q' e in
    if 2 ^ 1024 <=? m then Infinity (z <? 0)
    else of_Z (Z.sgn z * m).

(** ** Strings and [parseInt] *)

Definition code (c : ascii) : Z := Z.of_N (N_of_ascii c).

Definition between (lo hi : Z) (c : ascii) : bool :=
  (lo <=? code c) && (code c <=? hi).

(** One-byte white space and line terminators: TAB, LF, VT, FF, CR, SP. *)
Definition ws1 (c : ascii) : bool :=
  between 9 13 c || (code c =? 32).

(** U+00A0. *)
Definition ws2 (c1 c2 : ascii) : bool :=
  (code c1 =? 194) && (code c2 =? 160).

(** U+1680, U+2000..U+200A, U+2028, U+2029, U+202F, U+205F, U+3000,
    U+FEFF. *)
Definition ws3 (c1 c2 c3 : ascii) : bool :=
  let a := code c1 in let b := code c2 in let c := code c3 in
  ((a =? 225) && (b =? 154) && (c =? 128))
  || ((a =? 226) && (b =? 128)
      && (between 128 138 c3 || (c =? 168) || (c =? 169) || (c =? 175)))
  || ((a =? 226) && (b =? 129) && (c =? 159))
  || ((a =? 227) && (b =? 128) && (c =? 128))
  || ((a =? 239) && (b =? 187) && (c =? 191)).

Fixpoint TrimStart (s : string) : string :=
  match s with
  | String c1 r1 =>
      if ws1 c1 then TrimStart r1
      else
        match r1 with
        | String c2 r2 =>
            if ws2 c1 c2 then TrimStart r2
            else
              match r2 with
              | String c3 r3 => if ws3 c1 c2 c3 then TrimStart r3 else s
              | EmptyString => s
              end
        | EmptyString => s
        end
  | EmptyString => s
  end.

(** The value of [c] as a digit in radix [R], if it is one. *)
Definition digit (R : Z) (c : ascii) : option Z :=
  let v :=
    if between 48 57 c then Some (code c - 48)
    else if between 97 122 c then Some (code c - 87)
    else if between 65 90 c then Some (code c - 55)
    else None in
  match v with
  | Some d => if d <? R then Some d else None
  | None => None
  end.

(** The longest prefix of radix-[R] digits, read as an integer; [None]
    when the prefix is empty. *)
Fixpoint digits (R : Z) (s : string) (acc : option Z) : option Z :=
  match s with
  | String c r =>
      match digit R c with
      | Some d => digits R r (Some (R * default 0 acc + d))
      | None => acc
      end
  | EmptyString => acc
  end.

(** [parseInt(s)] with no radix argument. *)
Definition parseInt (s : string) : number :=
  let S1 := TrimStart s in
  let '(sign, S2) :=
    match S1 with
    | String "-" r => (-1, r)
    | String "+" r => (1, r)
    | _ => (1, S1)
    end in
  let '(R, S3) :=
    match S2 with
    | String "0" (String "x" r) => (16, r)
    | String "0" (String "X" r) => (16, r)
    | _ => (10, S2)
    end in
  match digits R S3 None with
  | None => NaN
  | Some mathInt => to_double (sign * mathInt)
  end.

(** ** JavaScript values *)

(** A [Date] holds a time value in milliseconds, or none when invalid. *)
#[local] Unset Elimination Schemes.
Inductive value : Type :=
| VUndefined
| VNull
| VBoolean (b : bool)
| VNumber (n : number)
| VString (s : string)
| VDate (t : option Z)
| VArray (l : list value)
| VObject (o : gmap string value).
#[local] Set Elimination Schemes.

(** [data[key]] on a plain object: [undefined] when the key is absent. *)
Definition get (o : gmap string value) (key : string) : value :=
  default VUndefined (o !! key).

(** The decimal numeral of an array index. *)
Definition index_key (i : nat) : string := pretty i.

Definition indexed (l : list value) : gmap string value :=
  list_to_map (imap (fun i v => (index_key i, v)) l).

Definition chars (s : string) : list value :=
  map (fun c => VString (String c EmptyString)) (list_ascii_of_string s).

(** The own enumerable properties that an object spread [{...v}] copies:
    those of an object, the indexed elements of an array, the indexed
    characters of a string, and nothing for the other values. *)
Definition own_props (v : value) : gmap string value :=
  match v with
  | VObject o => o
  | VArray l => indexed l
  | VString s => indexed (chars s)
  | _ => ∅
  end.

(** ** Schema validation (zod) *)

Inductive ZodParsedType : Type :=
| t_undefined | t_null | t_boolean | t_number | t_nan | t_string | t_date
| t_array | t_object.

Definition getParsedType (v : value) : ZodParsedType :=
  match v with
  | VUndefined => t_undefined
  | VNull => t_null
  | VBoolean _ => t_boolean
  | VNumber n => if isNaN n then t_nan else t_number
  | VString _ => t_string
  | VDate _ => t_date
  | VArray _ => t_array
  | VObject _ => t_object
  end.

Definition type_name (t : ZodParsedType) : string :=
  match t with
  | t_undefined => "undefined"
  | t_null => "null"
  | t_boolean => "boolean"
  | t_number => "number"
  | t_nan => "nan"
  | t_string => "string"
  | t_date => "date"
  | t_array => "array"
  | t_object => "object"
  end.

Inductive ZodIssueCode : Type :=
| invalid_type (expected received : ZodParsedType)
| invalid_string_email
| invalid_date.

Record ZodIssue : Type := { issue_code : ZodIssueCode; path : list string }.

(** The default error map. *)
Definition issue_message (c : ZodIssueCode) : string :=
  match c with
  | invalid_type _ t_undefined => "Required"
  | invalid_type e r =>
      "Expected " +:+ type_name e +:+ ", received " +:+ type_name r
  | invalid_string_email => "Invalid email"
  | invalid_date => "Invalid date"
  end.

(** The double quote character, as a string. *)
Definition quote : string := String (ascii_of_N 34) EmptyString.

Fixpoint join (sep : string) (l : list string) : string :=
  match l with
  | [] => ""
  | [x] => x
  | x :: r => x +:+ sep +:+ join sep r
  end.

(** [fromZodError(error).message]: the issues' messages, each followed by
    its path when it has one. *)
Definition fromZodError (issues : list ZodIssue) : string :=
  "Validation error: " +:+
  join "; "
    (map (fun i =>
            match path i with
            | [] => issue_message (issue_code i)
            | p => issue_message (issue_code i) +:+ " at " +:+ quote
                   +:+ join "." p +:+ quote
            end) issues).

(** A parse either collects issues or yields the validated data. *)
Definition ZodResult (A : Type) : Type := (list ZodIssue + A)%type.

Definition invalid {A} (c : ZodIssueCode) (p : list string) : ZodResult A :=
  inl [{| issue_code := c; path := p |}].

(** [z.string()] *)
Definition z_string (p : list string) (v : value) : ZodResult string :=
  match v with
  | VString s => inr s
  | _ => invalid (invalid_type t_string (getParsedType v)) p
  end.

(** [z.string().email()], for a given address test. *)
Definition z_string_email (isEmail : string -> bool)
    (p : list string) (v : value) : ZodResult string :=
  match v with
  | VString s => if isEmail s then inr s else invalid invalid_string_email p
  | _ => invalid (invalid_type t_string (getParsedType v)) p
  end.

(** [z.number()]: NaN is not a number for zod. *)
Definition z_number (p : list string) (v : value) : ZodResult number :=
  match v with
  | VNumber n =>
      if isNaN n then invalid (invalid_type t_number t_nan) p else inr n
  | _ => invalid (invalid_type t_number (getParsedType v)) p
  end.

(** [z.date()] *)
Definition z_date (p : list string) (v : value) : ZodResult Z :=
  match v with
  | VDate (Some t) => inr t
  | VDate None => invalid invalid_date p
  | _ => invalid (invalid_type t_date (getParsedType v)) p
  end.

(** [inner.nullable()] *)
Definition z_nullable {A} (inner : list string -> value -> ZodResult A)
    (p : list string) (v : value) : ZodResult (option A) :=
  match v with
  | VNull => inr None
  | _ => match inner p v with inl e => inl e | inr a => inr (Some a) end
  end.

(** An object schema validates every key of its shape and reports the
    issues of all of them, in the order of the shape. *)
Definition field {A B} (f : ZodResult (A -> B)) (x : ZodResult A)
    : ZodResult B :=
  match f, x with
  | inr g, inr a => inr (g a)
  | inl e, inr _ => inl e
  | inr _, inl e => inl e
  | inl e1, inl e2 => inl (e1 ++ e2)
  end.

Notation "f <&> x" := (field f x) (at level 50, left associativity).

(** [z.object(shape)] in the default mode, which drops unknown keys. *)
Definition z_object {A} (shape : gmap string value -> ZodResult A)
    (v : value) : ZodResult A :=
  match v with
  | VObject o => shape o
  | _ => invalid (invalid_type t_object (getParsedType v)) []
  end.

(** ** Entities *)

Module UserData.
Record t : Type := mk { name : string; email : string }.
End UserData.

Module User.
Record t : Type :=
  mk { id : number; name : string; email : string;
       createdAt : Z; updatedAt : Z }.
End User.

Module ReceiptData.
Record t : Type :=
  mk { userId : option number; storeName : string; date : Z;
       total : number }.
End ReceiptData.

Module Receipt.
Record t : Type :=
  mk { id : number; userId : option number; storeName : string; date : Z;
       total : number; createdAt : Z; updatedAt : Z }.
End Receipt.

Module ReceiptItemData.
Record t : Type :=
  mk { receiptId : number; name : string; price : number;
       quantity : number }.
End ReceiptItemData.

Module ReceiptItem.
Record t : Type :=
  mk { id : number; receiptId : number; name : string; price : number;
       quantity : number; createdAt : Z; updatedAt : Z }.
End ReceiptItem.

(** [UserSchema.omit({ id: true, createdAt: true, updatedAt: true })] *)
Definition UserSchema_omit (isEmail : string -> bool)
    : value -> ZodResult UserData.t :=
  z_object (fun o =>
    inr UserData.mk
      <&> z_string ["name"] (get o "name")
      <&> z_string_email isEmail ["email"] (get o "email")).

(** [ReceiptItemSchema.omit({ id: true, createdAt: true, updatedAt: true })] *)
Definition ReceiptItemSchema_omit : value -> ZodResult ReceiptItemData.t :=
  z_object (fun o =>
    inr ReceiptItemData.mk
      <&> z_number ["receiptId"] (get o "receiptId")
      <&> z_string ["name"] (get o "name")
      <&> z_number ["price"] (get o "price")
      <&> z_number ["quantity"] (get o "quantity")).

(** [ReceiptSchema.omit({ id: true, createdAt: true, updatedAt: true })] *)
Definition ReceiptSchema_omit : value -> ZodResult ReceiptData.t :=
  z_object (fun o =>
    inr ReceiptData.mk
      <&> z_nullable z_number ["userId"] (get o "userId")
      <&> z_string ["storeName"] (get o "storeName")
      <&> z_date ["date"] (get o "date")
      <&> z_number ["total"] (get o "total")).

(** ** The store *)

(** What the handlers read from outside: the [k]-th string that [nanoid()]
    returns and the [k]-th time that [new Date()] reads. *)
Record Env : Type := { nanoid : nat -> string; clock : nat -> Z }.

(** The three module-level arrays, with the number of draws and of clock
    reads made so far. *)
Record Store : Type := {
  _users : list User.t;
  _receipts : list Receipt.t;
  _receiptItems : list ReceiptItem.t;
  draws : nat;
  ticks : nat
}.

Inductive Exn : Type :=
| ZodError (issues : list ZodIssue)
| Error (message : string).

(** A computation over the store that returns or throws; the effects made
    before a throw stay. *)
Definition M (A : Type) : Type := Store -> (Exn + A) * Store.

Definition ret {A} (a : A) : M A := fun s => (inr a, s).

Definition throw {A} (e : Exn) : M A := fun s => (inl e, s).

Definition bind {A B} (m : M A) (k : A -> M B) : M B :=
  fun s =>
    match m s with
    | (inr a, s') => k a s'
    | (inl e, s') => (inl e, s')
    end.

Notation "'let*' x ':=' m 'in' k" := (bind m (fun x => k))
  (at level 10, x name, m at level 100, k at level 200).

(** [schema.parse(v)] throws a [ZodError] carrying the issues. *)
Definition parse {A} (schema : value -> ZodResult A) (v : value) : M A :=
  match schema v with
  | inl issues => throw (ZodError issues)
  | inr data => ret data
  end.

Fixpoint findIndex {A} (p : A -> bool) (l : list A) : option nat :=
  match l with
  | [] => None
  | x :: r => if p x then Some 0%nat else S <$> findIndex p r
  end.

Section Storage.
Variable env : Env.

(** [parseInt(nanoid())] *)
Definition parseInt_nanoid : M number := fun s =>
  (inr (parseInt (nanoid env (draws s))),
   {| _users := _users s; _receipts := _receipts s;
      _receiptItems := _receiptItems s;
      draws := S (draws s); ticks := ticks s |}).

(** [new Date()] *)
Definition new_Date : M Z := fun s =>
  (inr (clock env (ticks s)),
   {| _users := _users s; _receipts := _receipts s;
      _receiptItems := _receiptItems s;
      draws := draws s; ticks := S (ticks s) |}).

Definition push_user (user : User.t) : M unit := fun s =>
  (inr tt,
   {| _users := _users s ++ [user]; _receipts := _receipts s;
      _receiptItems := _receiptItems s;
      draws := draws s; ticks := ticks s |}).

Definition push_receipt (receipt : Receipt.t) : M unit := fun s =>
  (inr tt,
   {| _users := _users s; _receipts := _receipts s ++ [receipt];
      _receiptItems := _receiptItems s;
      draws := draws s; ticks := ticks s |}).

Definition push_receiptItem (item : ReceiptItem.t) : M unit := fun s =>
  (inr tt,
   {| _users := _users s; _receipts := _receipts s;
      _receiptItems := _receiptItems s ++ [item];
      draws := draws s; ticks := ticks s |}).

(** The object literals [{ ...data, id, createdAt, updatedAt }]; the
    file's second copy of the store writes [id] before the spread, which
    builds the same record from data that has no [id]. *)
Definition createUser (data : UserData.t) : M User.t :=
  let* id := parseInt_nanoid in
  let* createdAt := new_Date in
  let* updatedAt := new_Date in
  let user :=
    User.mk id (UserData.name data) (UserData.email data)
            createdAt updatedAt in
  let* _ := push_user user in
  ret user.

Definition getUserById (id : number) : M (option User.t) := fun s =>
  (inr (List.find (fun user => strict_eq (User.id user) id) (_users s)), s).

Definition getUserByEmail (email : string) : M (option User.t) := fun s =>
  (inr (List.find (fun user => String.eqb (User.email user) email)
          (_users s)), s).

Definition createReceipt (data : ReceiptData.t) : M Receipt.t :=
  let* id := parseInt_nanoid in
  let* createdAt := new_Date in
  let* updatedAt := new_Date in
  let receipt :=
    Receipt.mk id (ReceiptData.userId data) (ReceiptData.storeName data)
               (ReceiptData.date data) (ReceiptData.total data)
               createdAt updatedAt in
  let* _ := push_receipt receipt in
  ret receipt.

Definition getReceiptById (id : number) : M (option Receipt.t) := fun s =>
  (inr (List.find (fun receipt => strict_eq (Receipt.id receipt) id)
          (_receipts s)), s).

Definition createReceiptItem (data : ReceiptItemData.t)
    : M ReceiptItem.t :=
  let* id := parseInt_nanoid in
  let* createdAt := new_Date in
  let* updatedAt := new_Date in
  let item :=
    ReceiptItem.mk id (ReceiptItemData.receiptId data)
                   (ReceiptItemData.name data) (ReceiptItemData.price data)
                   (ReceiptItemData.quantity data) createdAt updatedAt in
  let* _ := push_receiptItem item in
  ret item.

Definition getReceiptItemsByReceiptId (receiptId : number)
    : M (list ReceiptItem.t) := fun s =>
  (inr (List.filter
          (fun item => strict_eq (ReceiptItem.receiptId item) receiptId)
          (_receiptItems s)), s).

(** [splice(index, 1)] at the index [findIndex] found; nothing when it
    found none. *)
Definition deleteReceiptItem (id : number) : M unit := fun s =>
  match findIndex (fun item => strict_eq (ReceiptItem.id item) id)
          (_receiptItems s) with
  | Some index =>
      (inr tt,
       {| _users := _users s; _receipts := _receipts s;
          _receiptItems := delete index (_receiptItems s);
          draws := draws s; ticks := ticks s |})
  | None => (inr tt, s)
  end.

(** ** The routes *)

Inductive Json : Type :=
| JReceipt (receipt : Receipt.t)
| JReceiptItem (item : ReceiptItem.t)
| JReceiptItems (items : list ReceiptItem.t)
| JUser (user : User.t)
| JMessage (message : string)
| JError (error : string).

(** A response: its status code and the body sent, if any. *)
Record Response : Type := { status : Z; body : option Json }.

Definition json (code : Z) (j : Json) : Response :=
  {| status := code; body := Some j |}.

(** [try { ... } catch (error) { ... }] around a handler body. *)
Definition try_catch (block : M Response) (handler : Exn -> Response)
    : Store -> Response * Store :=
  fun s =>
    match block s with
    | (inr res, s') => (res, s')
    | (inl error, s') => (handler error, s')
    end.

(** [app.get("/api/receipts/:id")] *)
Definition get_receipt (id_param : string) : Store -> Response * Store :=
  try_catch
    (let id := parseInt id_param in
     let* receipt := getReceiptById id in
     match receipt with
     | None => ret (json 404 (JMessage "Receipt not found"))
     | Some r => ret (json 200 (JReceipt r))
     end)
    (fun _ => json 500 (JMessage "Failed to fetch receipt")).

(** [app.post("/api/receipts")] *)
Definition post_receipts (req_body : value) : Store -> Response * Store :=
  try_catch
    (let* receiptData := parse ReceiptSchema_omit req_body in
     let* receipt := createReceipt receiptData in
     ret (json 201 (JReceipt receipt)))
    (fun error =>
       match error with
       | ZodError issues => json 400 (JMessage (fromZodError issues))
       | _ => json 500 (JMessage "Failed to create receipt")
       end).

(** The loop [for (const item of items)] of the batch route. *)
Fixpoint create_items (receiptId : number) (items : list value)
    (createdItems : list ReceiptItem.t) : M (list ReceiptItem.t) :=
  match items with
  | [] => ret createdItems
  | item :: rest =>
      let* itemData := parse ReceiptItemSchema_omit
          (VObject (<["receiptId" := VNumber receiptId]> (own_props item))) in
      let* createdItem := createReceiptItem itemData in
      create_items receiptId rest (createdItems ++ [createdItem])
  end.

(** [app.post("/api/receipts/:receiptId/items")] *)
Definition post_receipt_items (receiptId_param : string) (req_body : value)
    : Store -> Response * Store :=
  try_catch
    (let receiptId := parseInt receiptId_param in
     let* receipt := getReceiptById receiptId in
     match receipt with
     | None => ret (json 404 (JMessage "Receipt not found"))
     | Some _ =>
         let items :=
           match req_body with VArray l => l | _ => [req_body] end in
         let* createdItems := create_items receiptId items [] in
         ret (json 201 (JReceiptItems createdItems))
     end)
    (fun error =>
       match error with
       | ZodError issues => json 400 (JMessage (fromZodError issues))
       | _ => json 500 (JMessage "Failed to create receipt items")
       end).

(** [app.post('/api/users')] *)
Definition post_users (isEmail : string -> bool) (req_body : value)
    : Store -> Response * Store :=
  try_catch
    (let* userData := parse (UserSchema_omit isEmail) req_body in
     let* user := createUser userData in
     ret (json 200 (JUser user)))
    (fun error =>
       match error with
       | ZodError issues => json 400 (JError (fromZodError issues))
       | _ => json 500 (JError "Internal server error")
       end).

(** [app.post('/api/receipt-items')] *)
Definition post_receipt_item (req_body : value)
    : Store -> Response * Store :=
  try_catch
    (let* itemData := parse ReceiptItemSchema_omit req_body in
     let* item := createReceiptItem itemData in
     ret (json 200 (JReceiptItem item)))
    (fun error =>
       match error with
       | ZodError issues => json 400 (JError (fromZodError issues))
       | _ => json 500 (JError "Internal server error")
       end).

(** [app.get('/api/receipts/:receiptId/items')] *)
Definition get_receipt_items (receiptId_param : string)
    : Store -> Response * Store :=
  try_catch
    (let receiptId := parseInt receiptId_param in
     let* items := getReceiptItemsByReceiptId receiptId in
     ret (json 200 (JReceiptItems items)))
    (fun _ => json 500 (JError "Internal server error")).

(** [app.delete('/api/receipt-items/:id')] *)
Definition delete_receipt_item (id_param : string)
    : Store -> Response * Store :=
  try_catch
    (let id := parseInt id_param in
     let* _ := deleteReceiptItem id in
     ret {| status := 204; body := None |})
    (fun _ => json 500 (JError "Internal server error")).

End Storage.

(** ** The product helper *)

Module ProductInfo.
Record t : Type := mk { name : string; price : string }.
End ProductInfo.

(** [s.split('/')]: the pieces between the separators, at least one. *)
Fixpoint split (sep : ascii) (s : string) : list string :=
  match s with
  | EmptyString => [EmptyString]
  | String c r =>
      if Ascii.eqb c sep then EmptyString :: split sep r
      else
        match split sep r with
        | piece :: pieces => String c piece :: pieces
        | [] => [String c EmptyString]
        end
  end.

(** [\w] *)
Definition word_char (c : ascii) : bool :=
  between 48 57 c || between 65 90 c || between 97 122 c || (code c =? 95).

(** [l.toUpperCase()] on a character that [\w] matched. *)
Definition toUpperCase (c : ascii) : ascii :=
  if between 97 122 c then ascii_of_N (N_of_ascii c - 32) else c.

(** [.replace(/-/g, ' ')] *)
Fixpoint replace_hyphens (s : string) : string :=
  match s with
  | EmptyString => EmptyString
  | String c r =>
      String (if Ascii.eqb c "-" then " "%char else c) (replace_hyphens r)
  end.

(** [.replace(/\b\w/g, l => l.toUpperCase())]: a match is a word character
    with no word character before it; [after_word] tells whether the
    character before the rest of the string is one. *)
Fixpoint replace_word_starts (after_word : bool) (s : string) : string :=
  match s with
  | EmptyString => EmptyString
  | String c r =>
      String (if word_char c && negb after_word then toUpperCase c else c)
             (replace_word_starts (word_char c) r)
  end.

Section Product.
(** [new URL(url).pathname] of the platform, [None] when the constructor
    throws. *)
Variable URL_pathname : string -> option string.

Definition parseProductFromUrl (url : string) : Exn + ProductInfo.t :=
  match URL_pathname url with
  | Some pathname =>
      let pathParts := split "/" pathname in
      let lastPart := List.last pathParts EmptyString in
      let productName :=
        replace_word_starts false (replace_hyphens lastPart) in
      inr (ProductInfo.mk productName "0.00")
  | None => inl (Error "Failed to parse product URL")
  end.
End Product.

(** ** Instances of the platform functions *)

(** A pathname for plain absolute URLs [scheme://authority/path?query#hash]
    whose path needs no escaping or dot-segment removal: the part from the
    first slash after the authority up to the query or the hash. *)
Fixpoint until_query (s : string) : string :=
  match s with
  | EmptyString => EmptyString
  | String c r =>
      if Ascii.eqb c "?" || Ascii.eqb c "#" then EmptyString
      else String c (until_query r)
  end.

Fixpoint from_slash (s : string) : string :=
  match s with
  | EmptyString => "/"
  | String c r =>
      if Ascii.eqb c "/" then until_query s
      else if Ascii.eqb c "?" || Ascii.eqb c "#" then "/"
      else from_slash r
  end.

Fixpoint plain_pathname (url : string) : option string :=
  match url with
  | String ":" (String "/" (String "/" (String c r))) =>
      if Ascii.eqb c "/" then None else Some (from_slash (String c r))
  | String c r => if word_char c then plain_pathname r else None
  | EmptyString => None
  end.

(** An address test in the manner of zod's pattern: a local part of
    letters, digits and [_ ' + - .] that does not start with a dot and ends
    in a letter, a digit or one of [_ + -]; an [@]; a domain of
    dot-separated labels of letters, digits and hyphens that start with a
    letter or a digit, closed by a label of two letters or more; nowhere
    two dots in a row. *)
Definition alpha (c : ascii) : bool := between 65 90 c || between 97 122 c.

Definition alnum (c : ascii) : bool := alpha c || between 48 57 c.

Definition local_char (c : ascii) : bool :=
  alnum c || (code c =? 95) || (code c =? 39) || (code c =? 43)
  || (code c =? 45) || (code c =? 46).

Definition local_end (c : ascii) : bool :=
  alnum c || (code c =? 95) || (code c =? 43) || (code c =? 45).

Fixpoint all_chars (p : ascii -> bool) (s : string) : bool :=
  match s with
  | EmptyString => true
  | String c r => p c && all_chars p r
  end.

Definition last_char (s : string) : option ascii :=
  List.last (map Some (list_ascii_of_string s)) None.

Definition local_part (s : string) : bool :=
  match s with
  | EmptyString => false
  | String c _ =>
      negb (Ascii.eqb c ".") && all_chars local_char s
      && match last_char s with Some l => local_end l | None => false end
  end.

Definition label (s : string) : bool :=
  match s with
  | EmptyString => false
  | String c r =>
      alnum c && all_chars (fun x => alnum x || (code x =? 45)) r
  end.

Definition top_label (s : string) : bool :=
  (2 <=? Z.of_nat (String.length s)) && all_chars alpha s.

Fixpoint labels (l : list string) : bool :=
  match l with
  | [] => false
  | [_] => false
  | [a; t] => label a && top_label t
  | a :: r => label a && labels r
  end.

Fixpoint no_two_dots (s : string) : bool :=
  match s with
  | String "." (String "." _) => false
  | String _ r => no_two_dots r
  | EmptyString => true
  end.

Definition zod_isEmail (s : string) : bool :=
  match split "@" s with
  | [loc; domain] =>
      no_two_dots s && local_part loc && labels (split "." domain)
  | _ => false
  end.

(** ** Sample data *)

(** A string of the shape [nanoid()] returns: 21 characters out of
    [A-Za-z0-9_-]. *)
Definition nanoid_sample : string := "V1StGXR8_Z5jdHi6B-myT".

Definition env_sample : Env :=
  {| nanoid := fun _ => nanoid_sample;
     clock := fun k => 1700000000000 + Z.of_nat k |}.

(** An environment whose first draw starts with a digit. *)
Definition env_digit : Env :=
  {| nanoid := fun k =>
       match k with
       | O => "7_q3XbTnmZpL0aYwRk2Ee"
       | _ => nanoid_sample
       end;
     clock := fun k => 1700000000000 + Z.of_nat k |}.

Definition empty_store : Store :=
  {| _users := []; _receipts := []; _receiptItems := [];
     draws := 0; ticks := 0 |}.

Definition receipt_body : value :=
  VObject (<["userId" := VNull]>
          (<["storeName" := VString "Walmart"]>
          (<["date" := VDate (Some 1699999999000)]>
          (<["total" := VNumber (Fin (85 # 2))]> ∅)))).

Definition receipt_7 : Receipt.t :=
  Receipt.mk (of_Z 7) None "Walmart" 1699999999000 (Fin (85 # 2))
             1700000000000 1700000000001.

(** The store after [receipt_body] was posted under [env_digit]. *)
Definition store_one : Store :=
  {| _users := []; _receipts := [receipt_7]; _receiptItems := [];
     draws := 1; ticks := 2 |}.

Definition item_body (name : string) (price : Q) : value :=
  VObject (<["name" := VString name]>
          (<["price" := VNumber (Fin price)]>
          (<["quantity" := VNumber (of_Z 1)]> ∅))).

(** An item payload that names another receipt. *)
Definition item_body_other_receipt : value :=
  VObject (<["receiptId" := VNumber (of_Z 999)]>
          (<["name" := VString "Milk"]>
          (<["price" := VNumber (Fin (349 # 100))]>
          (<["quantity" := VNumber (of_Z 2)]> ∅)))).

Definition user_body (name email : string) : value :=
  VObject (<["name" := VString name]> (<["email" := VString email]> ∅)).

(** ** What [post_receipt_items] calls a valid payload

    An item payload is valid when it is an object whose [name] is a string
    and whose [price] and [quantity] are numbers other than NaN; what it
    says of [receiptId], if anything, plays no part. *)
Definition is_number (v : value) : bool :=
  match v with VNumber n => negb (isNaN n) | _ => false end.

Definition is_string (v : value) : bool :=
  match v with VString _ => true | _ => false end.

Definition valid_item (item : value) : bool :=
  match item with
  | VObject o =>
      is_string (get o "name") && is_number (get o "price")
      && is_number (get o "quantity")
  | _ => false
  end.

(** The item that the batch route stores for a valid payload. *)
Definition item_of (receiptId : number) (item : value) (id : number)
    (createdAt updatedAt : Z) : ReceiptItem.t :=
  let o := own_props item in
  ReceiptItem.mk id receiptId
    (match get o "name" with VString s => s | _ => "" end)
    (match get o "price" with VNumber n => n | _ => NaN end)
    (match get o "quantity" with VNumber n => n | _ => NaN end)
    createdAt updatedAt.

(** The items created for the payloads [items] from draw [d] and clock
    read [t] on. *)
Fixpoint items_of (env : Env) (receiptId : number) (items : list value)
    (d t : nat) : list ReceiptItem.t :=
  match items with
  | [] => []
  | item :: rest =>
      item_of receiptId item (parseInt (nanoid env d))
              (clock env t) (clock env (S t))
      :: items_of env receiptId rest (S d) (S (S t))
  end.

(** An item payload whose price is not a number. *)
Definition item_body_bad : value :=
  VObject (<["name" := VString "Eggs"]>
          (<["price" := VString "free"]>
          (<["quantity" := VNumber (of_Z 1)]> ∅))).

(** ** What the label of a path segment is

    A word is a maximal run of letters, digits and underscores. Position
    [i] of [seg] starts a word when no word character stands before it;
    [after_word] says whether one stands before the whole of [seg]. *)
Definition word_start (after_word : bool) (seg : string) (i : nat) : bool :=
  match i with
  | O => negb after_word
  | S j =>
      match String.get j seg with
      | Some p => negb (word_char p)
      | None => true
      end
  end.

(** The character of the label at position [i], where the segment has
    [c]: a space for a hyphen, the capital for the first letter of a word,
    and [c] itself otherwise. *)
Definition label_char (after_word : bool) (seg : string) (i : nat)
    (c : ascii) : ascii :=
  if Ascii.eqb c "-" then " "%char
  else if word_char c && word_start after_word seg i then toUpperCase c
  else c.

Definition is_label (after_word : bool) (seg name : string) : Prop :=
  String.length name = String.length seg
  /\ forall i c, String.get i seg = Some c ->
                 String.get i name = Some (label_char after_word seg i c).

(** [seg] is the last segment of [pathname]: it holds no slash and is all
    of [pathname] or what follows its last slash. *)
Definition last_segment (pathname seg : string) : Prop :=
  all_chars (fun c => negb (Ascii.eqb c "/")) seg = true
  /\ (pathname = seg \/ exists pre, pathname = pre +:+ String "/" seg).

(** A word with its first letter capitalised. *)
Definition capitalize (w : string) : string :=
  match w with
  | EmptyString => EmptyString
  | String c r => String (toUpperCase c) r
  end.

(** ** The rest of the store and of the routes *)

Definition getAllReceipts : M (list Receipt.t) := fun s =>
  (inr (_receipts s), s).

(** [receipt.userId === userId]: a receipt without owner has [null] there,
    which is no number. *)
Definition getReceiptsByUserId (userId : number) : M (list Receipt.t) :=
  fun s =>
    (inr (List.filter
            (fun receipt =>
               match Receipt.userId receipt with
               | Some u => strict_eq u userId
               | None => false
               end)
            (_receipts s)), s).

(** [app.get('/api/users/:id')] *)
Definition get_user (id_param : string) : Store -> Response * Store :=
  try_catch
    (let id := parseInt id_param in
     let* user := getUserById id in
     match user with
     | None => ret (json 404 (JError "User not found"))
     | Some u => ret (json 200 (JUser u))
     end)
    (fun _ => json 500 (JError "Internal server error")).

(** What [router.post('/fetch-product')] answers: a status with the product
    or with a message. *)
Record ProductResponse : Type :=
  { product_status : Z; product_body : string + ProductInfo.t }.

Section FetchProduct.
Variable URL_pathname : string -> option string.

(** The message of the [ZodError] that [fetchProductSchema.parse] throws on
    a body it refuses. *)
Variable parse_error_message : value -> string.

(** [fetchProductSchema.parse(body)], that is
    [z.object({ url: z.string().url() })]: the [url] must be a string that
    the [URL] constructor accepts; [None] when the parse throws. *)
Definition fetchProductSchema (v : value) : option string :=
  match v with
  | VObject o =>
      match get o "url" with
      | VString url =>
          match URL_pathname url with
          | Some _ => Some url
          | None => None
          end
      | _ => None
      end
  | _ => None
  end.

(** [router.post('/fetch-product')]: both kinds of error are [Error]s, and
    their message is sent with status 400. *)
Definition fetch_product (req_body : value) : ProductResponse :=
  match fetchProductSchema req_body with
  | None =>
      {| product_status := 400;
         product_body := inl (parse_error_message req_body) |}
  | Some url =>
      match parseProductFromUrl URL_pathname url with
      | inr productInfo =>
          {| product_status := 200; product_body := inr productInfo |}
      | inl (Error message) =>
          {| product_status := 400; product_body := inl message |}
      | inl (ZodError _) =>
          {| product_status := 400;
             product_body := inl (parse_error_message req_body) |}
      end
  end.
End FetchProduct.

(** ** Referential integrity of the items

    An item refers to a stored receipt when some receipt's id is [===] its
    [receiptId]. *)
Definition refers (s : Store) (item : ReceiptItem.t) : Prop :=
  exists r, In r (_receipts s)
            /\ strict_eq (Receipt.id r) (ReceiptItem.receiptId item) = true.

Definition referential (s : Store) : Prop :=
  Forall (refers s) (_receiptItems s).

(** [item]'s id is [===] [id]. *)
Definition has_id (id : number) (item : ReceiptItem.t) : bool :=
  strict_eq (ReceiptItem.id item) id.

(** [item] belongs to the receipt [receiptId]. *)
Definition of_receipt (receiptId : number) (item : ReceiptItem.t) : bool :=
  strict_eq (ReceiptItem.receiptId item) receiptId.

(** A store with a user, for the examples. *)
Definition user_ann : User.t :=
  User.mk (of_Z 3) "Ann" "ann@example.com" 1700000000000 1700000000001.

Definition store_ann : Store :=
  {| _users := [user_ann]; _receipts := [receipt_7]; _receiptItems := [];
     draws := 2; ticks := 4 |}.

Definition item_milk : ReceiptItem.t :=
  ReceiptItem.mk (of_Z 5) (of_Z 7) "Milk" (Fin (349 # 100)) (of_Z 2)
                 1700000000002 1700000000003.

Definition item_bread : ReceiptItem.t :=
  ReceiptItem.mk (of_Z 6) (of_Z 7) "Bread" (Fin (5 # 2)) (of_Z 1)
                 1700000000004 1700000000005.

Definition store_items : Store :=
  {| _users := []; _receipts := [receipt_7];
     _receiptItems := [item_milk; item_bread];
     draws := 3; ticks := 6 |}.

(** ** Bodies parsed from JSON

    JSON has no dates: in a body that a JSON parser produced, the [date]
    property is a string, a number or another JSON value, never a [Date]. *)
Definition date_is_Date (v : value) : bool :=
  match v with
  | VObject o => match get o "date" with VDate _ => true | _ => false end
  | _ => false
  end.

(** The receipt payload as a JSON request carries it, the date in ISO
    form. *)
Definition receipt_json : value :=
  VObject (<["userId" := VNull]>
          (<["storeName" := VString "Walmart"]>
          (<["date" := VString "2023-11-14T22:13:19.000Z"]>
          (<["total" := VNumber (Fin (85 # 2))]> ∅)))).

(** ** Facts on strict equality and on the list primitives *)

Lemma strict_eq_not_NaN (a b : number) :
  strict_eq a b = true -> isNaN b = false.
Proof. destruct a, b; simpl; congruence. Qed.

Lemma find_absent {A} (p : A -> bool) (l : list A) :
  (forall x, In x l -> p x = false) -> List.find p l = None.
Proof.
  induction l as [|x l IH]; simpl; intros H; [reflexivity|].
  rewrite (H x) by (left; reflexivity).
  apply IH. intros y Hy. apply H. right. exact Hy.
Qed.

(** [findIndex] returns the position of the first match, and [delete] at
    that position removes exactly that element. *)
Lemma findIndex_Some {A} (p : A -> bool) (l : list A) (i : nat) :
  findIndex p l = Some i ->
  exists l1 x l2,
    l = l1 ++ x :: l2 /\ length l1 = i /\ p x = true
    /\ Forall (fun y => p y = false) l1 /\ delete i l = l1 ++ l2.
Proof.
  revert i. induction l as [|a l IH]; simpl; intros i H; [discriminate|].
  destruct (p a) eqn:Hpa.
  - injection H as <-. exists [], a, l. repeat split; auto.
  - destruct (findIndex p l) as [j|] eqn:Hj; simpl in H; [|discriminate].
    injection H as <-.
    destruct (IH j eq_refl) as (l1 & x & l2 & -> & Hlen & Hx & Hall & Hdel).
    exists (a :: l1), x, l2. simpl. repeat split; auto.
    + f_equal. exact Hdel.
Qed.

Lemma findIndex_None {A} (p : A -> bool) (l : list A) :
  findIndex p l = None -> Forall (fun y => p y = false) l.
Proof.
  induction l as [|a l IH]; simpl; intros H; [constructor|].
  destruct (p a) eqn:Hpa; [discriminate|].
  destruct (findIndex p l); [discriminate|].
  constructor; auto.
Qed.

(** ** One step of each create operation *)

Lemma createUser_run (env : Env) (data : UserData.t) (s : Store) :
  let user :=
    User.mk (parseInt (nanoid env (draws s))) (UserData.name data)
            (UserData.email data) (clock env (ticks s))
            (clock env (S (ticks s))) in
  createUser env data s =
  (inr user,
   {| _users := _users s ++ [user]; _receipts := _receipts s;
      _receiptItems := _receiptItems s;
      draws := S (draws s); ticks := S (S (ticks s)) |}).
Proof. reflexivity. Qed.

Lemma createReceipt_run (env : Env) (data : ReceiptData.t) (s : Store) :
  let receipt :=
    Receipt.mk (parseInt (nanoid env (draws s))) (ReceiptData.userId data)
               (ReceiptData.storeName data) (ReceiptData.date data)
               (ReceiptData.total data) (clock env (ticks s))
               (clock env (S (ticks s))) in
  createReceipt env data s =
  (inr receipt,
   {| _users := _users s; _receipts := _receipts s ++ [receipt];
      _receiptItems := _receiptItems s;
      draws := S (draws s); ticks := S (S (ticks s)) |}).
Proof. reflexivity. Qed.

Lemma createReceiptItem_run (env : Env) (data : ReceiptItemData.t)
    (s : Store) :
  let item :=
    ReceiptItem.mk (parseInt (nanoid env (draws s)))
                   (ReceiptItemData.receiptId data)
                   (ReceiptItemData.name data) (ReceiptItemData.price data)
                   (ReceiptItemData.quantity data) (clock env (ticks s))
                   (clock env (S (ticks s))) in
  createReceiptItem env data s =
  (inr item,
   {| _users := _users s; _receipts := _receipts s;
      _receiptItems := _receiptItems s ++ [item];
      draws := S (draws s); ticks := S (S (ticks s)) |}).
Proof. reflexivity. Qed.

(** ** Lookups that find nothing *)

(** C7: for every id that no stored receipt has, GET /api/receipts/:id
    answers 404 "Receipt not found" (not the 500 of the error path) and
    leaves the store as it was. *)
Theorem get_receipt_absent_404 (s : Store) (id_param : string) :
  (forall r, In r (_receipts s) ->
             strict_eq (Receipt.id r) (parseInt id_param) = false) ->
  get_receipt id_param s = (json 404 (JMessage "Receipt not found"), s)
  /\ status (fst (get_receipt id_param s)) <> 500.
Proof.
  intros Habsent. unfold get_receipt, try_catch, bind, getReceiptById.
  rewrite (find_absent _ _ Habsent). simpl. split; [reflexivity|discriminate].
Qed.

Lemma get_receipt_absent_404_witness :
  get_receipt "7" empty_store
  = (json 404 (JMessage "Receipt not found"), empty_store)
  /\ status (fst (get_receipt "7" empty_store)) <> 500.
Proof.
  apply (get_receipt_absent_404 empty_store "7").
  simpl. intros r [].
Defined.

(** C3: when no stored receipt has the id of the path, POST
    /api/receipts/:receiptId/items answers 404 whatever the body is, and
    the store, its item sequence included, is unchanged. *)
Theorem post_receipt_items_absent_404 (env : Env) (s : Store)
    (receiptId_param : string) (req_body : value) :
  (forall r, In r (_receipts s) ->
             strict_eq (Receipt.id r) (parseInt receiptId_param) = false) ->
  post_receipt_items env receiptId_param req_body s
  = (json 404 (JMessage "Receipt not found"), s).
Proof.
  intros Habsent.
  unfold post_receipt_items, try_catch, bind, getReceiptById.
  rewrite (find_absent _ _ Habsent). reflexivity.
Qed.

Lemma post_receipt_items_absent_404_witness :
  post_receipt_items env_sample "8" (VArray [item_body "Milk" (349 # 100)])
                     store_one
  = (json 404 (JMessage "Receipt not found"), store_one).
Proof.
  apply (post_receipt_items_absent_404 env_sample store_one "8").
  intros r [<-|[]]. reflexivity.
Defined.

(** ** Deleting an item *)

(** C6: DELETE /api/receipt-items/:id always answers 204 with no body. When
    some item has the id, the first such item is removed and the others
    stay, in their order; when none has it, the store is unchanged. Users
    and receipts are never touched. *)
Theorem delete_receipt_item_first_match (s : Store) (id_param : string) :
  let id := parseInt id_param in
  let res := fst (delete_receipt_item id_param s) in
  let s' := snd (delete_receipt_item id_param s) in
  res = {| status := 204; body := None |}
  /\ _users s' = _users s /\ _receipts s' = _receipts s
  /\ ((exists l1 x l2,
         _receiptItems s = l1 ++ x :: l2
         /\ strict_eq (ReceiptItem.id x) id = true
         /\ Forall (fun y => strict_eq (ReceiptItem.id y) id = false) l1
         /\ _receiptItems s' = l1 ++ l2)
      \/ (Forall (fun y => strict_eq (ReceiptItem.id y) id = false)
                 (_receiptItems s)
          /\ s' = s)).
Proof.
  cbv zeta.
  unfold delete_receipt_item, try_catch, bind, deleteReceiptItem, ret.
  destruct (findIndex _ (_receiptItems s)) as [i|] eqn:Hfind; simpl.
  - repeat split.
    left. apply findIndex_Some in Hfind.
    destruct Hfind as (l1 & x & l2 & Hl & _ & Hx & Hall & Hdel).
    exists l1, x, l2. auto.
  - repeat split.
    right. split; [|reflexivity]. apply findIndex_None. exact Hfind.
Qed.

(** ** Creating users *)

(** C5: [createUser] never throws and always appends, without looking at
    the emails already stored: two calls with one email store two users
    with that email. *)
Theorem createUser_appends_duplicates (env : Env) (s : Store)
    (name1 name2 email : string) :
  exists u1 u2 s1 s2,
    createUser env (UserData.mk name1 email) s = (inr u1, s1)
    /\ createUser env (UserData.mk name2 email) s1 = (inr u2, s2)
    /\ _users s2 = _users s ++ [u1; u2]
    /\ User.email u1 = email /\ User.email u2 = email
    /\ User.name u1 = name1 /\ User.name u2 = name2.
Proof.
  do 4 eexists. rewrite !createUser_run. cbv zeta.
  split; [reflexivity|]. split; [reflexivity|]. simpl.
  rewrite <- app_assoc. repeat split.
Qed.

(** ** Status codes of the create routes *)

(** C9: a payload that validates is stored and answered with 201 by POST
    /api/receipts, but with 200 by POST /api/users and by POST
    /api/receipt-items. *)
Theorem create_status_codes (env : Env) (isEmail : string -> bool)
    (s : Store) (req_body : value) :
  (forall data, ReceiptSchema_omit req_body = inr data ->
     exists r s',
       post_receipts env req_body s = (json 201 (JReceipt r), s')
       /\ _receipts s' = _receipts s ++ [r])
  /\ (forall data, UserSchema_omit isEmail req_body = inr data ->
        exists u s',
          post_users env isEmail req_body s = (json 200 (JUser u), s')
          /\ _users s' = _users s ++ [u])
  /\ (forall data, ReceiptItemSchema_omit req_body = inr data ->
        exists i s',
          post_receipt_item env req_body s = (json 200 (JReceiptItem i), s')
          /\ _receiptItems s' = _receiptItems s ++ [i]).
Proof.
  repeat split; intros data Hvalid.
  - unfold post_receipts, try_catch, bind at 1, parse. rewrite Hvalid.
    unfold ret at 1, bind at 1. rewrite createReceipt_run. cbv zeta.
    do 2 eexists. split; reflexivity.
  - unfold post_users, try_catch, bind at 1, parse. rewrite Hvalid.
    unfold ret at 1, bind at 1. rewrite createUser_run. cbv zeta.
    do 2 eexists. split; reflexivity.
  - unfold post_receipt_item, try_catch, bind at 1, parse. rewrite Hvalid.
    unfold ret at 1, bind at 1. rewrite createReceiptItem_run. cbv zeta.
    do 2 eexists. split; reflexivity.
Qed.

Lemma create_status_codes_witness :
  status (fst (post_receipts env_sample receipt_body empty_store)) = 201
  /\ status (fst (post_users env_sample zod_isEmail
                    (user_body "Ann" "ann@example.com") empty_store)) = 200
  /\ status (fst (post_receipt_item env_sample item_body_other_receipt
                    empty_store)) = 200.
Proof.
  split; [|split].
  - destruct (create_status_codes env_sample zod_isEmail empty_store
                receipt_body) as (H & _ & _).
    destruct (H (ReceiptData.mk None "Walmart" 1699999999000 (Fin (85 # 2)))
                eq_refl) as (r & s' & -> & _).
    reflexivity.
  - destruct (create_status_codes env_sample zod_isEmail empty_store
                (user_body "Ann" "ann@example.com")) as (_ & H & _).
    destruct (H (UserData.mk "Ann" "ann@example.com") eq_refl)
      as (u & s' & -> & _).
    reflexivity.
  - destruct (create_status_codes env_sample zod_isEmail empty_store
                item_body_other_receipt) as (_ & _ & H).
    destruct (H (ReceiptItemData.mk (of_Z 999) "Milk" (Fin (349 # 100))
                   (of_Z 2)) eq_refl) as (i & s' & -> & _).
    reflexivity.
Defined.

(** ** Validation of a user's name *)

(** C4, on the code: a payload whose name is the empty string is not
    refused. Under zod's address test, POST /api/users with the name [""]
    and the email [a@b.co] answers 200 and stores the user. *)
Lemma post_users_empty_name_accepted :
  get (<["name" := VString ""]> (<["email" := VString "a@b.co"]> ∅)) "name"
  = VString ""
  /\ status (fst (post_users env_sample zod_isEmail (user_body "" "a@b.co")
                    empty_store)) = 200
  /\ status (fst (post_users env_sample zod_isEmail (user_body "" "a@b.co")
                    empty_store)) <> 400
  /\ map User.name
         (_users (snd (post_users env_sample zod_isEmail
                         (user_body "" "a@b.co") empty_store))) = [""].
Proof. vm_compute. repeat split; discriminate. Qed.

(** C4 as the code has it: the schema asks of the name only that it be a
    string, so for a payload whose name is the empty string the email
    decides. With an email that passes the address test the user is stored
    and the answer is 200; with any other email the answer is 400, nothing
    is stored, and the message is derived from the one validation issue,
    which is on the email. *)
Theorem post_users_empty_name (env : Env) (isEmail : string -> bool)
    (s : Store) (o : gmap string value) :
  o !! "name" = Some (VString "") ->
  (forall e, get o "email" = VString e -> isEmail e = true ->
     exists u s',
       post_users env isEmail (VObject o) s = (json 200 (JUser u), s')
       /\ User.name u = "" /\ User.email u = e
       /\ _users s' = _users s ++ [u])
  /\ ((forall e, get o "email" = VString e -> isEmail e = false) ->
      exists c,
        post_users env isEmail (VObject o) s
        = (json 400
             (JError (fromZodError [{| issue_code := c; path := ["email"] |}])),
           s)).
Proof.
  intros Hname. split.
  - intros e He Hok.
    unfold post_users, try_catch, bind at 1, parse, UserSchema_omit, z_object.
    unfold get at 1. rewrite Hname, He. simpl. rewrite Hok. simpl.
    do 2 eexists. repeat split.
  - intros Hbad.
    unfold post_users, try_catch, bind at 1, parse, UserSchema_omit, z_object.
    unfold get at 1. rewrite Hname. simpl.
    destruct (get o "email") as [| |b|n|e|t|l|o'] eqn:He; simpl;
      try (eexists; reflexivity).
    rewrite (Hbad e eq_refl). simpl. eexists; reflexivity.
Qed.

Lemma post_users_empty_name_witness :
  (exists u s',
     post_users env_sample zod_isEmail (user_body "" "a@b.co") empty_store
     = (json 200 (JUser u), s')
     /\ User.name u = "" /\ User.email u = "a@b.co"
     /\ _users s' = _users empty_store ++ [u])
  /\ (exists c,
        post_users env_sample zod_isEmail (user_body "" "not-an-email")
                   empty_store
        = (json 400
             (JError
                (fromZodError [{| issue_code := c; path := ["email"] |}])),
           empty_store)).
Proof.
  split.
  - assert (Hname :
      (<["name" := VString ""]> (<["email" := VString "a@b.co"]> ∅)
         : gmap string value) !! "name" = Some (VString ""))
      by reflexivity.
    apply (proj1 (post_users_empty_name env_sample zod_isEmail empty_store
                    _ Hname) "a@b.co"); reflexivity.
  - assert (Hname :
      (<["name" := VString ""]> (<["email" := VString "not-an-email"]> ∅)
         : gmap string value) !! "name" = Some (VString ""))
      by reflexivity.
    apply (proj2 (post_users_empty_name env_sample zod_isEmail empty_store
                    _ Hname)).
    intros e He. vm_compute in He. injection He as <-. reflexivity.
Defined.

(** ** Creating a receipt and reading it back *)

(** C1, on the code: POST /api/receipts cannot store the receipt of a JSON
    request. The schema asks for a [Date] object as [date], and the ISO
    string of the JSON body is none: even under a draw that starts with a
    digit the route answers 400, stores nothing, and GET /api/receipts/:id
    afterwards answers 404 for every path parameter. *)
Theorem post_receipts_json_rejected_sample :
  post_receipts env_digit receipt_json empty_store
  = (json 400
       (JMessage ("Validation error: Expected date, received string at "
                  +:+ quote +:+ "date" +:+ quote)),
     empty_store)
  /\ forall id_param,
       get_receipt id_param
         (snd (post_receipts env_digit receipt_json empty_store))
       = (json 404 (JMessage "Receipt not found"), empty_store).
Proof.
  split; [vm_compute; reflexivity|].
  intros id_param. reflexivity.
Qed.

(** Past the schema, with a body that holds a [Date] object: under the
    draw ["V1StGXR8_Z5jdHi6B-myT"], which does not start with a digit, the
    receipt is stored under the id NaN and answered 201; after that GET
    /api/receipts/:id answers 404 for every path parameter. *)
Lemma post_receipts_then_get_sample :
  exists r s1,
    post_receipts env_sample receipt_body empty_store
    = (json 201 (JReceipt r), s1)
    /\ _receipts s1 = [r]
    /\ Receipt.id r = NaN
    /\ forall id_param,
         get_receipt id_param s1
         = (json 404 (JMessage "Receipt not found"), s1).
Proof.
  do 2 eexists. split; [vm_compute; reflexivity|].
  split; [reflexivity|]. split; [reflexivity|].
  intros id_param. unfold get_receipt, try_catch, bind, getReceiptById.
  reflexivity.
Qed.

(** ** The batch route *)

Lemma find_present {A} (p : A -> bool) (l : list A) (x : A) :
  In x l -> p x = true -> exists y, List.find p l = Some y /\ p y = true.
Proof.
  induction l as [|a l IH]; simpl; intros Hin Hp; [contradiction|].
  destruct (p a) eqn:Hpa; [eauto|].
  destruct Hin as [->|Hin]; [congruence|]. auto.
Qed.

(** A valid payload passes the schema once the route has written the
    path's receipt id over whatever the payload said. *)
Lemma parse_valid_item (receiptId : number) (item : value) :
  isNaN receiptId = false ->
  valid_item item = true ->
  ReceiptItemSchema_omit
    (VObject (<["receiptId" := VNumber receiptId]> (own_props item)))
  = inr (ReceiptItemData.mk receiptId
           (ReceiptItem.name (item_of receiptId item NaN 0 0))
           (ReceiptItem.price (item_of receiptId item NaN 0 0))
           (ReceiptItem.quantity (item_of receiptId item NaN 0 0))).
Proof.
  intros Hrid Hvalid.
  destruct item as [| |b|n|str|t|l|o]; try discriminate Hvalid.
  simpl in Hvalid. apply andb_prop in Hvalid as [Hvalid Hq].
  apply andb_prop in Hvalid as [Hn Hp].
  unfold ReceiptItemSchema_omit, z_object, item_of, own_props, get.
  rewrite lookup_insert_eq. rewrite !lookup_insert_ne by discriminate.
  fold (get o "name") (get o "price") (get o "quantity"). simpl.
  rewrite Hrid.
  destruct (get o "name"); try discriminate Hn.
  destruct (get o "price") as [| | |p| | | |]; try discriminate Hp.
  destruct (get o "quantity") as [| | |q| | | |]; try discriminate Hq.
  simpl in *. apply negb_true_iff in Hp, Hq. rewrite Hp, Hq. reflexivity.
Qed.

Lemma items_of_length (env : Env) (receiptId : number) (items : list value)
    (d t : nat) :
  length (items_of env receiptId items d t) = length items.
Proof.
  revert d t. induction items as [|item rest IH]; simpl; intros d t; auto.
Qed.

Lemma items_of_receiptId (env : Env) (receiptId : number)
    (items : list value) (d t : nat) :
  Forall (fun i => ReceiptItem.receiptId i = receiptId)
         (items_of env receiptId items d t).
Proof.
  revert d t. induction items as [|item rest IH]; simpl; intros d t;
    constructor; auto.
Qed.

(** The loop over valid payloads never throws: it stores one item per
    payload, in order, and returns them after the ones it was given. *)
Lemma create_items_valid (env : Env) (receiptId : number)
    (items : list value) :
  isNaN receiptId = false ->
  Forall (fun item => valid_item item = true) items ->
  forall (createdItems : list ReceiptItem.t) (s : Store),
    create_items env receiptId items createdItems s
    = (inr (createdItems
            ++ items_of env receiptId items (draws s) (ticks s)),
       {| _users := _users s; _receipts := _receipts s;
          _receiptItems :=
            _receiptItems s
            ++ items_of env receiptId items (draws s) (ticks s);
          draws := (length items + draws s)%nat;
          ticks := (2 * length items + ticks s)%nat |}).
Proof.
  intros Hrid Hall. induction Hall as [|item rest Hitem _ IH];
    intros createdItems s.
  - simpl. unfold ret. rewrite !app_nil_r. destruct s; reflexivity.
  - simpl. unfold bind at 1, parse.
    rewrite (parse_valid_item _ _ Hrid Hitem).
    unfold ret at 1, bind at 1. rewrite createReceiptItem_run. cbv zeta.
    rewrite IH. simpl. rewrite <- !app_assoc. simpl.
    repeat f_equal; lia.
Qed.

(** The loop stops at the first payload that fails the schema, with the
    items of the payloads before it already stored. *)
Lemma create_items_invalid (env : Env) (receiptId : number)
    (before : list value) (bad : value) (after : list value)
    (issues : list ZodIssue) :
  isNaN receiptId = false ->
  Forall (fun item => valid_item item = true) before ->
  ReceiptItemSchema_omit
    (VObject (<["receiptId" := VNumber receiptId]> (own_props bad)))
  = inl issues ->
  forall (createdItems : list ReceiptItem.t) (s : Store),
    create_items env receiptId (before ++ bad :: after) createdItems s
    = (inl (ZodError issues),
       {| _users := _users s; _receipts := _receipts s;
          _receiptItems :=
            _receiptItems s
            ++ items_of env receiptId before (draws s) (ticks s);
          draws := (length before + draws s)%nat;
          ticks := (2 * length before + ticks s)%nat |}).
Proof.
  intros Hrid Hall Hbad. induction Hall as [|item rest Hitem _ IH];
    intros createdItems s.
  - simpl. unfold bind at 1, parse. rewrite Hbad. unfold throw.
    rewrite app_nil_r. destruct s; reflexivity.
  - simpl. unfold bind at 1, parse.
    rewrite (parse_valid_item _ _ Hrid Hitem).
    unfold ret at 1, bind at 1. rewrite createReceiptItem_run. cbv zeta.
    rewrite IH. simpl. rewrite <- !app_assoc. simpl.
    repeat f_equal; lia.
Qed.

(** C2: when a stored receipt has the id of the path, POST
    /api/receipts/:receiptId/items with an array of N valid payloads
    answers 201 with N created items, one per payload and in their order;
    each carries the path's receipt id, whatever [receiptId] the payload
    held, and they are appended to the stored items. *)
Theorem post_receipt_items_creates_all (env : Env) (s : Store)
    (receiptId_param : string) (r : Receipt.t) (items : list value) :
  In r (_receipts s) ->
  strict_eq (Receipt.id r) (parseInt receiptId_param) = true ->
  Forall (fun item => valid_item item = true) items ->
  exists created s',
    post_receipt_items env receiptId_param (VArray items) s
    = (json 201 (JReceiptItems created), s')
    /\ length created = length items
    /\ Forall (fun i => ReceiptItem.receiptId i = parseInt receiptId_param)
              created
    /\ created
       = items_of env (parseInt receiptId_param) items (draws s) (ticks s)
    /\ _receiptItems s' = _receiptItems s ++ created.
Proof.
  intros Hin Hid Hall.
  destruct (find_present
              (fun receipt =>
                 strict_eq (Receipt.id receipt) (parseInt receiptId_param))
              _ _ Hin Hid) as (y & Hfind & _).
  unfold post_receipt_items, try_catch, bind at 1, getReceiptById.
  rewrite Hfind. unfold bind at 1.
  rewrite (create_items_valid env _ _ (strict_eq_not_NaN _ _ Hid) Hall).
  unfold ret. simpl. do 2 eexists. split; [reflexivity|].
  split; [apply items_of_length|].
  split; [apply items_of_receiptId|]. split; reflexivity.
Qed.

Lemma post_receipt_items_creates_all_witness :
  exists created s',
    post_receipt_items env_sample "7"
      (VArray [item_body_other_receipt; item_body "Bread" (5 # 2)]) store_one
    = (json 201 (JReceiptItems created), s')
    /\ length created = 2%nat
    /\ Forall (fun i => ReceiptItem.receiptId i = parseInt "7") created
    /\ created
       = items_of env_sample (parseInt "7")
           [item_body_other_receipt; item_body "Bread" (5 # 2)] 1 2
    /\ _receiptItems s' = _receiptItems store_one ++ created.
Proof.
  apply (post_receipt_items_creates_all env_sample store_one "7" receipt_7
           [item_body_other_receipt; item_body "Bread" (5 # 2)]).
  - simpl. left. reflexivity.
  - reflexivity.
  - repeat constructor.
Defined.

(** C8: the batch is not atomic. When a stored receipt has the id of the
    path and the array holds k valid payloads followed by one that fails
    the schema, the route answers 400 with the message of that failure,
    and the k items created before it stay in the store. *)
Theorem post_receipt_items_not_atomic (env : Env) (s : Store)
    (receiptId_param : string) (r : Receipt.t)
    (before : list value) (bad : value) (after : list value)
    (issues : list ZodIssue) :
  In r (_receipts s) ->
  strict_eq (Receipt.id r) (parseInt receiptId_param) = true ->
  Forall (fun item => valid_item item = true) before ->
  ReceiptItemSchema_omit
    (VObject (<["receiptId" := VNumber (parseInt receiptId_param)]>
                (own_props bad)))
  = inl issues ->
  exists created s',
    post_receipt_items env receiptId_param (VArray (before ++ bad :: after)) s
    = (json 400 (JMessage (fromZodError issues)), s')
    /\ length created = length before
    /\ created
       = items_of env (parseInt receiptId_param) before (draws s) (ticks s)
    /\ _receiptItems s' = _receiptItems s ++ created.
Proof.
  intros Hin Hid Hall Hbad.
  destruct (find_present
              (fun receipt =>
                 strict_eq (Receipt.id receipt) (parseInt receiptId_param))
              _ _ Hin Hid) as (y & Hfind & _).
  unfold post_receipt_items, try_catch, bind at 1, getReceiptById.
  rewrite Hfind. unfold bind at 1.
  rewrite (create_items_invalid env _ _ _ _ _
             (strict_eq_not_NaN _ _ Hid) Hall Hbad).
  simpl. do 2 eexists. split; [reflexivity|].
  split; [apply items_of_length|]. split; reflexivity.
Qed.

Lemma post_receipt_items_not_atomic_witness :
  exists created s',
    post_receipt_items env_sample "7"
      (VArray ([item_body "Bread" (5 # 2)] ++ item_body_bad
               :: [item_body "Milk" (349 # 100)])) store_one
    = (json 400
         (JMessage
            (fromZodError
               [{| issue_code := invalid_type t_number t_string;
                   path := ["price"] |}])), s')
    /\ length created = 1%nat
    /\ created
       = items_of env_sample (parseInt "7") [item_body "Bread" (5 # 2)] 1 2
    /\ _receiptItems s' = _receiptItems store_one ++ created.
Proof.
  apply (post_receipt_items_not_atomic env_sample store_one "7" receipt_7
           [item_body "Bread" (5 # 2)] item_body_bad
           [item_body "Milk" (349 # 100)]).
  - simpl. left. reflexivity.
  - reflexivity.
  - repeat constructor.
  - reflexivity.
Defined.

(** ** The product label *)

Lemma word_char_hyphen (c : ascii) :
  word_char (if Ascii.eqb c "-" then " "%char else c)
  = negb (Ascii.eqb c "-") && word_char c.
Proof.
  destruct (Ascii.eqb c "-") eqn:Hc; [|reflexivity].
  reflexivity.
Qed.

Lemma word_char_not_hyphen (c : ascii) :
  word_char c = true -> Ascii.eqb c "-" = false.
Proof.
  intros Hw. destruct (Ascii.eqb c "-") eqn:Hc; [|reflexivity].
  apply Ascii.eqb_eq in Hc. subst c. discriminate Hw.
Qed.

(** The two replacements, read position by position. *)
Lemma replace_is_label (seg : string) :
  forall after_word,
    is_label after_word seg
      (replace_word_starts after_word (replace_hyphens seg)).
Proof.
  induction seg as [|c r IH]; intros after_word.
  - split; [reflexivity|]. intros i ch H. destruct i; discriminate H.
  - destruct (IH (word_char (if Ascii.eqb c "-" then " "%char else c)))
      as [Hlen Hget].
    split; [simpl; f_equal; exact Hlen|].
    intros [|i] ch H; simpl in H.
    + injection H as <-. simpl. f_equal. unfold label_char, word_start.
      destruct (Ascii.eqb c "-") eqn:Hc; reflexivity.
    + simpl. rewrite (Hget i ch H). f_equal.
      unfold label_char. destruct (Ascii.eqb ch "-"); [reflexivity|].
      destruct (word_char ch) eqn:Hw; [|reflexivity]. simpl.
      destruct i as [|j]; simpl; [|reflexivity].
      rewrite word_char_hyphen.
      destruct (word_char c) eqn:Hwc; [|rewrite andb_false_r; reflexivity].
      rewrite (word_char_not_hyphen c Hwc). reflexivity.
Qed.

(** [split] yields the last segment as its last piece. *)
Lemma split_last_segment (sep : ascii) (s : string) :
  let seg := List.last (split sep s) EmptyString in
  all_chars (fun c => negb (Ascii.eqb c sep)) seg = true
  /\ ((split sep s = [seg] /\ s = seg)
      \/ (exists pre, s = pre +:+ String sep seg)
         /\ exists a b rest, split sep s = a :: b :: rest).
Proof.
  induction s as [|c r IH]; cbv zeta.
  - simpl. auto.
  - cbv zeta in IH. destruct IH as [Hseg IH]. simpl split.
    destruct (Ascii.eqb c sep) eqn:Hc.
    + apply Ascii.eqb_eq in Hc. subst c.
      destruct (split sep r) as [|p ps] eqn:Hsplit.
      * destruct IH as [[Habs _]|[_ (a & b & rest & Habs)]]; discriminate.
      * change (List.last (EmptyString :: p :: ps) EmptyString)
          with (List.last (p :: ps) EmptyString).
        split; [exact Hseg|]. right. split; [|eauto].
        destruct IH as [[_ ->]|[[pre ->] _]].
        -- exists EmptyString. reflexivity.
        -- exists (String sep pre). reflexivity.
    + destruct (split sep r) as [|p ps] eqn:Hsplit.
      * destruct IH as [[Habs _]|[_ (a & b & rest & Habs)]]; discriminate.
      * destruct IH as [[Hone Hr]|[[pre ->] (a & b & rest & Htwo)]].
        -- injection Hone as _ ->. simpl in Hr, Hseg. subst r. simpl.
           rewrite Hc, Hseg. auto.
        -- injection Htwo as -> ->.
           change (List.last (String c a :: b :: rest) EmptyString)
             with (List.last (a :: b :: rest) EmptyString).
           split; [exact Hseg|]. right. split; [|eauto].
           exists (String c pre). reflexivity.
Qed.

(** C10: [parseProductFromUrl] never fetches anything. For a URL whose
    pathname the platform gives, it returns the price ["0.00"] and, as the
    name, the label of the pathname's last segment: each hyphen turned
    into a space and the first letter of each word capitalised. For
    [https://example.com/store/cool-blue-widget], whose pathname is
    [/store/cool-blue-widget], the name is ["Cool Blue Widget"]. *)
Theorem parseProductFromUrl_label (URL_pathname : string -> option string) :
  (forall url pathname,
     URL_pathname url = Some pathname ->
     exists seg name,
       parseProductFromUrl URL_pathname url
       = inr (ProductInfo.mk name "0.00")
       /\ last_segment pathname seg
       /\ is_label false seg name)
  /\ (URL_pathname "https://example.com/store/cool-blue-widget"
      = Some "/store/cool-blue-widget" ->
      parseProductFromUrl URL_pathname
        "https://example.com/store/cool-blue-widget"
      = inr (ProductInfo.mk "Cool Blue Widget" "0.00")).
Proof.
  split.
  - intros url pathname Hpath. unfold parseProductFromUrl. rewrite Hpath.
    exists (List.last (split "/" pathname) EmptyString). eexists.
    split; [reflexivity|]. split.
    + destruct (split_last_segment "/" pathname) as [Hseg Hcases].
      split; [exact Hseg|].
      destruct Hcases as [[_ Heq]|[Hpre _]]; [left; exact Heq|right; exact Hpre].
    + apply replace_is_label.
  - intros Hpath. unfold parseProductFromUrl. rewrite Hpath. reflexivity.
Qed.

Lemma parseProductFromUrl_label_witness :
  (exists seg name,
     parseProductFromUrl plain_pathname
       "https://example.com/store/cool-blue-widget?ref=home"
     = inr (ProductInfo.mk name "0.00")
     /\ last_segment "/store/cool-blue-widget" seg
     /\ is_label false seg name)
  /\ parseProductFromUrl plain_pathname
       "https://example.com/store/cool-blue-widget"
     = inr (ProductInfo.mk "Cool Blue Widget" "0.00").
Proof.
  split.
  - apply (proj1 (parseProductFromUrl_label plain_pathname)
             "https://example.com/store/cool-blue-widget?ref=home"
             "/store/cool-blue-widget").
    reflexivity.
  - apply (proj2 (parseProductFromUrl_label plain_pathname)).
    reflexivity.
Defined.

(** On a slug, a segment of word characters and hyphens only, the label is
    the hyphen-separated words, each capitalised, joined by spaces. *)
Lemma join_cons_char (sep : string) (c : ascii) (p : string)
    (rest : list string) :
  join sep (String c p :: rest) = String c (join sep (p :: rest)).
Proof. destruct rest; reflexivity. Qed.

Lemma split_not_nil (sep : ascii) (s : string) : split sep s <> [].
Proof.
  destruct s as [|c r]; simpl; [discriminate|].
  destruct (Ascii.eqb c sep); [discriminate|].
  destruct (split sep r); discriminate.
Qed.

Lemma label_of_slug_from (seg : string) :
  all_chars (fun c => word_char c || Ascii.eqb c "-") seg = true ->
  forall after_word,
    replace_word_starts after_word (replace_hyphens seg)
    = join " "
        match split "-" seg with
        | p :: ps => (if after_word then p else capitalize p)
                     :: map capitalize ps
        | [] => []
        end.
Proof.
  induction seg as [|c r IH]; intros Hslug after_word.
  - destruct after_word; reflexivity.
  - simpl in Hslug. apply andb_prop in Hslug as [Hc Hr].
    specialize (IH Hr). simpl.
    destruct (Ascii.eqb c "-") eqn:Hhyphen.
    + change (word_char " "%char) with false. simpl. rewrite (IH false).
      destruct (split "-" r) as [|p ps] eqn:Hsplit;
        [exfalso; exact (split_not_nil _ _ Hsplit)|].
      destruct after_word; reflexivity.
    + rewrite orb_false_r in Hc. rewrite Hc. rewrite (IH true).
      destruct (split "-" r) as [|p ps] eqn:Hsplit;
        [exfalso; exact (split_not_nil _ _ Hsplit)|].
      destruct after_word; simpl negb; cbv iota; unfold capitalize;
        rewrite join_cons_char; reflexivity.
Qed.

(** On a slug the two replacements give the hyphen-separated words, each
    with its first letter capitalised, joined by single spaces. *)
Lemma label_of_slug (seg : string) :
  all_chars (fun c => word_char c || Ascii.eqb c "-") seg = true ->
  replace_word_starts false (replace_hyphens seg)
  = join " " (map capitalize (split "-" seg)).
Proof.
  intros Hslug. rewrite (label_of_slug_from seg Hslug false).
  destruct (split "-" seg); reflexivity.
Qed.

(** ** Reading back a receipt whose id is a fresh number *)

Lemma find_last {A} (p : A -> bool) (l : list A) (x : A) :
  (forall y, In y l -> p y = false) -> p x = true ->
  List.find p (l ++ [x]) = Some x.
Proof.
  induction l as [|a l IH]; simpl; intros Hl Hx.
  - rewrite Hx. reflexivity.
  - rewrite (Hl a) by (left; reflexivity).
    apply IH; [|exact Hx]. intros y Hy. apply Hl. right. exact Hy.
Qed.

(** When the path parameter denotes the id drawn for the new receipt and
    no older receipt has that id, GET after POST returns the record made of
    the payload's fields, the id and the two timestamps. *)
Lemma post_receipts_then_get_fresh (env : Env) (s : Store)
    (req_body : value) (data : ReceiptData.t) (id_param : string) :
  ReceiptSchema_omit req_body = inr data ->
  (forall r, In r (_receipts s) ->
             strict_eq (Receipt.id r) (parseInt id_param) = false) ->
  strict_eq (parseInt (nanoid env (draws s))) (parseInt id_param) = true ->
  let r :=
    Receipt.mk (parseInt (nanoid env (draws s))) (ReceiptData.userId data)
               (ReceiptData.storeName data) (ReceiptData.date data)
               (ReceiptData.total data) (clock env (ticks s))
               (clock env (S (ticks s))) in
  let s1 := snd (post_receipts env req_body s) in
  post_receipts env req_body s = (json 201 (JReceipt r), s1)
  /\ get_receipt id_param s1 = (json 200 (JReceipt r), s1).
Proof.
  intros Hvalid Hfresh Hid. cbv zeta.
  unfold post_receipts, try_catch, bind at 1, parse. rewrite Hvalid.
  unfold ret at 1, bind at 1. rewrite createReceipt_run. cbv zeta.
  unfold bind at 1, ret at 1. simpl. split; [reflexivity|].
  unfold get_receipt, try_catch, bind, getReceiptById. simpl.
  rewrite find_last; [reflexivity|exact Hfresh|exact Hid].
Qed.

Lemma find_app_miss {A} (p : A -> bool) (l : list A) (x : A) :
  p x = false -> List.find p (l ++ [x]) = List.find p l.
Proof.
  intros Hx. induction l as [|a l IH]; simpl.
  - rewrite Hx. reflexivity.
  - destruct (p a); [reflexivity|exact IH].
Qed.

(** When the draw parses to NaN, the new receipt is out of reach: after
    the POST every GET answers what it answered before. *)
Lemma post_receipts_NaN_unreadable (env : Env) (s : Store)
    (req_body : value) (data : ReceiptData.t) (id_param : string) :
  ReceiptSchema_omit req_body = inr data ->
  parseInt (nanoid env (draws s)) = NaN ->
  fst (get_receipt id_param (snd (post_receipts env req_body s)))
  = fst (get_receipt id_param s).
Proof.
  intros Hvalid Hnan.
  unfold post_receipts, try_catch, bind at 1, parse. rewrite Hvalid.
  unfold ret at 1, bind at 1. rewrite createReceipt_run. cbv zeta.
  unfold ret at 1. simpl.
  unfold get_receipt, try_catch, bind, getReceiptById. simpl.
  rewrite find_app_miss by (simpl; rewrite Hnan; reflexivity).
  destruct (List.find _ (_receipts s)); reflexivity.
Qed.

(** ** Worked examples *)

Example parseInt_nanoid_sample : parseInt nanoid_sample = NaN.
Proof. reflexivity. Qed.

Example parseInt_digits : parseInt "7_q3XbTnmZpL0aYwRk2Ee" = of_Z 7.
Proof. reflexivity. Qed.

Example parseInt_hex : parseInt " -0x1Fz" = of_Z (-31).
Proof. reflexivity. Qed.

Example parseInt_rounds : parseInt "9007199254740993" = of_Z (2 ^ 53).
Proof. reflexivity. Qed.

Example store_one_posted :
  post_receipts env_digit receipt_body empty_store
  = (json 201 (JReceipt receipt_7), store_one).
Proof. vm_compute. reflexivity. Qed.

Example store_one_read_back :
  get_receipt "7" store_one = (json 200 (JReceipt receipt_7), store_one).
Proof. reflexivity. Qed.

Example post_users_bad_email :
  post_users env_sample zod_isEmail (user_body "A" "not-an-email") empty_store
  = (json 400
       (JError ("Validation error: Invalid email at " +:+ quote +:+ "email"
                +:+ quote)),
     empty_store).
Proof. vm_compute. reflexivity. Qed.

Example post_receipts_date_string :
  fst (post_receipts env_sample
         (VObject (<["userId" := VNull]>
                  (<["storeName" := VString "Walmart"]>
                  (<["date" := VString "2023-11-14T22:13:19.000Z"]>
                  (<["total" := VNumber (of_Z 10)]> ∅)))))
         empty_store)
  = json 400
      (JMessage ("Validation error: Expected date, received string at "
                 +:+ quote +:+ "date" +:+ quote)).
Proof. vm_compute. reflexivity. Qed.

Example label_sample :
  replace_word_starts false (replace_hyphens "it's-a_3d.model")
  = "It'S A_3d.Model".
Proof. reflexivity. Qed.

(** ** Further properties of the store and the routes *)

Lemma strict_eq_refl (a : number) : isNaN a = false -> strict_eq a a = true.
Proof.
  destruct a as [|sg|q]; simpl; intros H; try discriminate.
  - apply Bool.eqb_reflx.
  - apply Qeq_bool_iff. reflexivity.
Qed.

Lemma strict_eq_NaN (a : number) : strict_eq a NaN = false.
Proof. destruct a; reflexivity. Qed.

Lemma get_insert_ne (o : gmap string value) (k key : string) (x : value) :
  k <> key -> get (<[k := x]> o) key = get o key.
Proof. intros Hne. unfold get. rewrite lookup_insert_ne by exact Hne. reflexivity. Qed.

(** A path parameter that is no number finds nothing anywhere: the two
    lookups by id answer 404, the batch route answers 404 and creates
    nothing, the item listing is empty, and DELETE answers 204 and removes
    nothing. *)
Theorem non_numeric_parameter (env : Env) (s : Store) (param : string)
    (req_body : value) :
  parseInt param = NaN ->
  get_receipt param s = (json 404 (JMessage "Receipt not found"), s)
  /\ get_user param s = (json 404 (JError "User not found"), s)
  /\ post_receipt_items env param req_body s
     = (json 404 (JMessage "Receipt not found"), s)
  /\ get_receipt_items param s = (json 200 (JReceiptItems []), s)
  /\ delete_receipt_item param s = ({| status := 204; body := None |}, s).
Proof.
  intros Hnan.
  assert (Hr : List.find
                 (fun receipt => strict_eq (Receipt.id receipt) NaN)
                 (_receipts s) = None).
  { apply find_absent. intros r _. apply strict_eq_NaN. }
  assert (Hu : List.find (fun user => strict_eq (User.id user) NaN)
                 (_users s) = None).
  { apply find_absent. intros r _. apply strict_eq_NaN. }
  assert (Hi : List.filter
                 (fun item => strict_eq (ReceiptItem.receiptId item) NaN)
                 (_receiptItems s) = []).
  { generalize (_receiptItems s). intros l.
    induction l as [|i l IH]; simpl; [reflexivity|].
    rewrite strict_eq_NaN. exact IH. }
  assert (Hd : findIndex (fun item => strict_eq (ReceiptItem.id item) NaN)
                 (_receiptItems s) = None).
  { generalize (_receiptItems s). intros l.
    induction l as [|i l IH]; simpl; [reflexivity|].
    rewrite strict_eq_NaN, IH. reflexivity. }
  unfold get_receipt, get_user, post_receipt_items, get_receipt_items,
    delete_receipt_item, try_catch, bind, getReceiptById, getUserById,
    getReceiptItemsByReceiptId, deleteReceiptItem.
  rewrite Hnan, Hr, Hu, Hi, Hd. repeat split.
Qed.

Lemma non_numeric_parameter_witness :
  get_receipt "abc" store_items
  = (json 404 (JMessage "Receipt not found"), store_items)
  /\ get_user "abc" store_items
     = (json 404 (JError "User not found"), store_items)
  /\ post_receipt_items env_sample "abc" (VArray []) store_items
     = (json 404 (JMessage "Receipt not found"), store_items)
  /\ get_receipt_items "abc" store_items
     = (json 200 (JReceiptItems []), store_items)
  /\ delete_receipt_item "abc" store_items
     = ({| status := 204; body := None |}, store_items).
Proof.
  apply (non_numeric_parameter env_sample store_items "abc" (VArray [])).
  reflexivity.
Defined.

(** The routes that create one record write nothing when the payload fails
    the schema: the answer is 400 with the message of the issues, and the
    store is as before. *)
Theorem single_create_rejects_cleanly (env : Env)
    (isEmail : string -> bool) (s : Store) (req_body : value)
    (issues : list ZodIssue) :
  (ReceiptSchema_omit req_body = inl issues ->
   post_receipts env req_body s
   = (json 400 (JMessage (fromZodError issues)), s))
  /\ (UserSchema_omit isEmail req_body = inl issues ->
      post_users env isEmail req_body s
      = (json 400 (JError (fromZodError issues)), s))
  /\ (ReceiptItemSchema_omit req_body = inl issues ->
      post_receipt_item env req_body s
      = (json 400 (JError (fromZodError issues)), s)).
Proof.
  repeat split; intros Hbad.
  - unfold post_receipts, try_catch, bind, parse. rewrite Hbad. reflexivity.
  - unfold post_users, try_catch, bind, parse. rewrite Hbad. reflexivity.
  - unfold post_receipt_item, try_catch, bind, parse. rewrite Hbad.
    reflexivity.
Qed.

Lemma single_create_rejects_cleanly_witness :
  post_receipts env_sample item_body_bad store_one
  = (json 400
       (JMessage
          (fromZodError
             [{| issue_code := invalid_type t_number t_undefined;
                 path := ["userId"] |};
              {| issue_code := invalid_type t_string t_undefined;
                 path := ["storeName"] |};
              {| issue_code := invalid_type t_date t_undefined;
                 path := ["date"] |};
              {| issue_code := invalid_type t_number t_undefined;
                 path := ["total"] |}])), store_one)
  /\ post_users env_sample zod_isEmail VNull store_one
     = (json 400
          (JError
             (fromZodError
                [{| issue_code := invalid_type t_object t_null;
                    path := [] |}])), store_one)
  /\ post_receipt_item env_sample item_body_bad store_one
     = (json 400
          (JError
             (fromZodError
                [{| issue_code := invalid_type t_number t_undefined;
                    path := ["receiptId"] |};
                 {| issue_code := invalid_type t_number t_string;
                    path := ["price"] |}])), store_one).
Proof.
  split; [|split].
  - apply (proj1 (single_create_rejects_cleanly env_sample zod_isEmail
                    store_one item_body_bad _)).
    reflexivity.
  - apply (proj1 (proj2 (single_create_rejects_cleanly env_sample
                           zod_isEmail store_one VNull _))).
    reflexivity.
  - apply (proj2 (proj2 (single_create_rejects_cleanly env_sample
                           zod_isEmail store_one item_body_bad _))).
    reflexivity.
Defined.

(** The schemas omit [id], [createdAt] and [updatedAt] and drop unknown
    keys: whatever a payload says under one of these three keys changes
    nothing of what the create routes do. *)
Theorem server_fields_ignored (env : Env) (isEmail : string -> bool)
    (s : Store) (o : gmap string value) (k : string) (x : value) :
  In k ["id"; "createdAt"; "updatedAt"] ->
  post_receipts env (VObject (<[k := x]> o)) s
  = post_receipts env (VObject o) s
  /\ post_users env isEmail (VObject (<[k := x]> o)) s
     = post_users env isEmail (VObject o) s
  /\ post_receipt_item env (VObject (<[k := x]> o)) s
     = post_receipt_item env (VObject o) s.
Proof.
  intros Hk.
  assert (Hne : forall key,
            In key ["userId"; "storeName"; "date"; "total"; "name"; "email";
                    "receiptId"; "price"; "quantity"] -> k <> key).
  { intros key Hkey Heq. subst key. simpl in Hk, Hkey.
    intuition congruence. }
  unfold post_receipts, post_users, post_receipt_item, parse,
    ReceiptSchema_omit, UserSchema_omit, ReceiptItemSchema_omit, z_object.
  rewrite !get_insert_ne by (apply Hne; simpl; tauto).
  repeat split.
Qed.

Lemma server_fields_ignored_witness :
  post_receipts env_sample
    (VObject (<["id" := VNumber (of_Z 1)]>
                (<["userId" := VNull]>
                (<["storeName" := VString "Walmart"]>
                (<["date" := VDate (Some 1699999999000)]>
                (<["total" := VNumber (Fin (85 # 2))]> ∅)))))) empty_store
  = post_receipts env_sample receipt_body empty_store.
Proof.
  apply (proj1 (server_fields_ignored env_sample zod_isEmail empty_store
                  (<["userId" := VNull]>
                  (<["storeName" := VString "Walmart"]>
                  (<["date" := VDate (Some 1699999999000)]>
                  (<["total" := VNumber (Fin (85 # 2))]> ∅))))
                  "id" (VNumber (of_Z 1)) (or_introl eq_refl))).
Defined.

(** ** The batch route on any body *)

(** Whatever the payload holds, data that passes the batch route's schema
    carries the receipt id that the route wrote into it. *)
Lemma parsed_item_receiptId (receiptId : number) (o : gmap string value)
    (data : ReceiptItemData.t) :
  ReceiptItemSchema_omit (VObject (<["receiptId" := VNumber receiptId]> o))
  = inr data ->
  ReceiptItemData.receiptId data = receiptId.
Proof.
  unfold ReceiptItemSchema_omit, z_object. unfold get at 1.
  rewrite lookup_insert_eq. simpl.
  destruct (isNaN receiptId);
    destruct (z_string _ _), (z_number _ _), (z_number _ _); simpl;
    intros H; try discriminate H.
  injection H as <-. reflexivity.
Qed.

(** One turn of the loop, on a payload that passes and on one that
    does not. *)
Lemma create_items_step (env : Env) (receiptId : number) (item : value)
    (rest : list value) (createdItems : list ReceiptItem.t) (s : Store)
    (data : ReceiptItemData.t) :
  ReceiptItemSchema_omit
    (VObject (<["receiptId" := VNumber receiptId]> (own_props item)))
  = inr data ->
  let i :=
    ReceiptItem.mk (parseInt (nanoid env (draws s)))
                   (ReceiptItemData.receiptId data)
                   (ReceiptItemData.name data) (ReceiptItemData.price data)
                   (ReceiptItemData.quantity data) (clock env (ticks s))
                   (clock env (S (ticks s))) in
  create_items env receiptId (item :: rest) createdItems s
  = create_items env receiptId rest (createdItems ++ [i])
      {| _users := _users s; _receipts := _receipts s;
         _receiptItems := _receiptItems s ++ [i];
         draws := S (draws s); ticks := S (S (ticks s)) |}.
Proof.
  intros Hparse. simpl. unfold bind at 1, parse. rewrite Hparse.
  unfold ret at 1, bind at 1. rewrite createReceiptItem_run. reflexivity.
Qed.

Lemma create_items_stop (env : Env) (receiptId : number) (item : value)
    (rest : list value) (createdItems : list ReceiptItem.t) (s : Store)
    (issues : list ZodIssue) :
  ReceiptItemSchema_omit
    (VObject (<["receiptId" := VNumber receiptId]> (own_props item)))
  = inl issues ->
  create_items env receiptId (item :: rest) createdItems s
  = (inl (ZodError issues), s).
Proof.
  intros Hparse. simpl. unfold bind at 1, parse. rewrite Hparse. reflexivity.
Qed.

(** The loop on any list of payloads: it only appends items, all of the
    route's receipt; users and receipts are untouched; it returns the
    given items followed by the appended ones, or throws a [ZodError]. *)
Lemma create_items_any (env : Env) (receiptId : number)
    (items : list value) :
  forall (createdItems : list ReceiptItem.t) (s : Store),
  exists extra,
    _receiptItems (snd (create_items env receiptId items createdItems s))
    = _receiptItems s ++ extra
    /\ Forall (fun i => ReceiptItem.receiptId i = receiptId) extra
    /\ _users (snd (create_items env receiptId items createdItems s))
       = _users s
    /\ _receipts (snd (create_items env receiptId items createdItems s))
       = _receipts s
    /\ match fst (create_items env receiptId items createdItems s) with
       | inr l => l = createdItems ++ extra
       | inl e => exists issues, e = ZodError issues
       end.
Proof.
  induction items as [|item rest IH]; intros createdItems s.
  - exists []. simpl. rewrite !app_nil_r. repeat split. constructor.
  - destruct (ReceiptItemSchema_omit
                (VObject (<["receiptId" := VNumber receiptId]>
                            (own_props item)))) as [issues|data] eqn:Hparse.
    + rewrite (create_items_stop _ _ _ _ _ _ _ Hparse).
      exists []. simpl. rewrite app_nil_r. repeat split; eauto.
    + rewrite (create_items_step _ _ _ _ _ _ _ Hparse). cbv zeta.
      match goal with
      | |- context [create_items env receiptId rest ?acc ?s1] =>
          destruct (IH acc s1) as (extra & Hitems & Hall & Hu & Hr & Hres);
          set (X := create_items env receiptId rest acc s1) in *
      end.
      apply parsed_item_receiptId in Hparse.
      simpl in Hitems, Hu, Hr.
      eexists. split.
      { rewrite Hitems, <- app_assoc. simpl. reflexivity. }
      split; [constructor; [exact Hparse|exact Hall]|].
      split; [exact Hu|]. split; [exact Hr|].
      destruct (fst X); [exact Hres|].
      rewrite Hres, <- app_assoc. reflexivity.
Qed.

(** The batch route keeps the items referential: if every stored item
    refers to a stored receipt before POST /api/receipts/:receiptId/items,
    so does every stored item after it, for every body and whether the
    answer is 201, 400 or 404. *)
Theorem post_receipt_items_referential (env : Env) (s : Store)
    (receiptId_param : string) (req_body : value) :
  referential s ->
  referential (snd (post_receipt_items env receiptId_param req_body s)).
Proof.
  intros Href.
  unfold post_receipt_items, try_catch, bind at 1, getReceiptById.
  destruct (List.find _ (_receipts s)) as [r|] eqn:Hfind;
    [|exact Href].
  apply find_some in Hfind as [Hin Hid].
  unfold bind at 1.
  match goal with
  | |- context [create_items env ?rid ?items ?acc s] =>
      destruct (create_items_any env rid items acc s)
        as (extra & Hitems & Hall & _ & Hr & _);
      destruct (create_items env rid items acc s) as [[e|l] s']
  end; simpl in *.
  - unfold referential, refers. rewrite Hitems, Hr.
    apply Forall_app. split; [exact Href|].
    eapply Forall_impl; [exact Hall|]. simpl.
    intros i ->. exists r. split; assumption.
  - unfold referential, refers. rewrite Hitems, Hr.
    apply Forall_app. split; [exact Href|].
    eapply Forall_impl; [exact Hall|]. simpl.
    intros i ->. exists r. split; assumption.
Qed.

Lemma post_receipt_items_referential_witness :
  referential
    (snd (post_receipt_items env_sample "7"
            (VArray [item_body "Bread" (5 # 2); item_body_bad])
            store_items)).
Proof.
  apply (post_receipt_items_referential env_sample store_items "7").
  repeat constructor; exists receipt_7; split;
    [left; reflexivity|reflexivity|left; reflexivity|reflexivity].
Defined.

(** POST /api/receipt-items does not look for the receipt: a valid payload
    whose [receiptId] no stored receipt has is stored all the same, with
    status 200, and the stored item refers to no receipt. *)
Theorem post_receipt_item_dangling (env : Env) (s : Store)
    (req_body : value) (data : ReceiptItemData.t) :
  ReceiptItemSchema_omit req_body = inr data ->
  (forall r, In r (_receipts s) ->
     strict_eq (Receipt.id r) (ReceiptItemData.receiptId data) = false) ->
  exists i s',
    post_receipt_item env req_body s = (json 200 (JReceiptItem i), s')
    /\ _receiptItems s' = _receiptItems s ++ [i]
    /\ ReceiptItem.receiptId i = ReceiptItemData.receiptId data
    /\ ~ refers s' i
    /\ ~ referential s'.
Proof.
  intros Hvalid Habsent.
  unfold post_receipt_item, try_catch, bind at 1, parse. rewrite Hvalid.
  unfold ret at 1, bind at 1. rewrite createReceiptItem_run. cbv zeta.
  do 2 eexists. split; [reflexivity|]. simpl.
  split; [reflexivity|]. split; [reflexivity|].
  split.
  { intros (r & Hin & Hid). simpl in Hin, Hid.
    rewrite (Habsent r Hin) in Hid. discriminate. }
  intros Href. unfold referential in Href. simpl in Href.
  apply Forall_app in Href as [_ Hlast].
  inversion Hlast as [|? ? (r & Hin & Hid) _]; subst.
  simpl in Hin, Hid. rewrite (Habsent r Hin) in Hid. discriminate.
Qed.

Lemma post_receipt_item_dangling_witness :
  exists i s',
    post_receipt_item env_sample item_body_other_receipt store_one
    = (json 200 (JReceiptItem i), s')
    /\ _receiptItems s' = _receiptItems store_one ++ [i]
    /\ ReceiptItem.receiptId i = of_Z 999
    /\ ~ refers s' i
    /\ ~ referential s'.
Proof.
  apply (post_receipt_item_dangling env_sample store_one
           item_body_other_receipt
           (ReceiptItemData.mk (of_Z 999) "Milk" (Fin (349 # 100)) (of_Z 2))).
  - reflexivity.
  - intros r [<-|[]]. reflexivity.
Defined.

(** ** Listing the items of a receipt *)

Lemma filter_all {A} (p : A -> bool) (l : list A) :
  Forall (fun x => p x = true) l -> List.filter p l = l.
Proof.
  induction 1 as [|x l Hx _ IH]; simpl; [reflexivity|].
  rewrite Hx, IH. reflexivity.
Qed.

(** The run of the batch route on valid payloads, with the store it
    leaves. *)
Lemma post_receipt_items_run (env : Env) (s : Store)
    (receiptId_param : string) (r : Receipt.t) (items : list value) :
  In r (_receipts s) ->
  strict_eq (Receipt.id r) (parseInt receiptId_param) = true ->
  Forall (fun item => valid_item item = true) items ->
  post_receipt_items env receiptId_param (VArray items) s
  = (json 201
       (JReceiptItems
          (items_of env (parseInt receiptId_param) items (draws s) (ticks s))),
     {| _users := _users s; _receipts := _receipts s;
        _receiptItems :=
          _receiptItems s
          ++ items_of env (parseInt receiptId_param) items
               (draws s) (ticks s);
        draws := (length items + draws s)%nat;
        ticks := (2 * length items + ticks s)%nat |}).
Proof.
  intros Hin Hid Hall.
  destruct (find_present
              (fun receipt =>
                 strict_eq (Receipt.id receipt) (parseInt receiptId_param))
              _ _ Hin Hid) as (y & Hfind & _).
  unfold post_receipt_items, try_catch, bind at 1, getReceiptById.
  rewrite Hfind. unfold bind at 1.
  rewrite (create_items_valid env _ _ (strict_eq_not_NaN _ _ Hid) Hall).
  reflexivity.
Qed.

(** What the batch created is what the listing then shows: after a
    successful POST /api/receipts/:receiptId/items, GET on the same path
    answers with the items it listed before followed by the created ones,
    in the order of the payloads. *)
Theorem post_receipt_items_then_list (env : Env) (s : Store)
    (receiptId_param : string) (r : Receipt.t) (items : list value) :
  In r (_receipts s) ->
  strict_eq (Receipt.id r) (parseInt receiptId_param) = true ->
  Forall (fun item => valid_item item = true) items ->
  let s' := snd (post_receipt_items env receiptId_param (VArray items) s) in
  get_receipt_items receiptId_param s'
  = (json 200
       (JReceiptItems
          (List.filter (of_receipt (parseInt receiptId_param))
                       (_receiptItems s)
           ++ items_of env (parseInt receiptId_param) items
                (draws s) (ticks s))),
     s').
Proof.
  intros Hin Hid Hall. cbv zeta.
  pose proof (strict_eq_not_NaN _ _ Hid) as Hnum.
  rewrite (post_receipt_items_run env s receiptId_param r items Hin Hid Hall).
  simpl snd.
  unfold get_receipt_items, try_catch, bind, getReceiptItemsByReceiptId, ret.
  simpl. rewrite List.filter_app.
  rewrite (filter_all _ (items_of env (parseInt receiptId_param) items
                           (draws s) (ticks s))); [reflexivity|].
  eapply Forall_impl; [apply items_of_receiptId|].
  simpl. intros i ->. apply strict_eq_refl. exact Hnum.
Qed.

Lemma post_receipt_items_then_list_witness :
  get_receipt_items "7"
    (snd (post_receipt_items env_sample "7"
            (VArray [item_body "Eggs" (3 # 1)]) store_items))
  = (json 200
       (JReceiptItems
          (List.filter (of_receipt (parseInt "7")) (_receiptItems store_items)
           ++ items_of env_sample (parseInt "7") [item_body "Eggs" (3 # 1)]
                3 6)),
     snd (post_receipt_items env_sample "7"
            (VArray [item_body "Eggs" (3 # 1)]) store_items)).
Proof.
  apply (post_receipt_items_then_list env_sample store_items "7" receipt_7
           [item_body "Eggs" (3 # 1)]).
  - left. reflexivity.
  - reflexivity.
  - repeat constructor.
Defined.

Lemma findIndex_first {A} (p : A -> bool) (l1 : list A) (x : A)
    (l2 : list A) :
  Forall (fun y => p y = false) l1 -> p x = true ->
  findIndex p (l1 ++ x :: l2) = Some (length l1).
Proof.
  induction 1 as [|a l Ha _ IH]; simpl; intros Hx.
  - rewrite Hx. reflexivity.
  - rewrite Ha, (IH Hx). reflexivity.
Qed.

(** When exactly one stored item has the id, DELETE
    /api/receipt-items/:id takes it out of every listing: afterwards GET
    /api/receipts/:receiptId/items answers, for every receipt, with its
    earlier items less that one, and no listed item has the id. *)
Theorem delete_then_list (s : Store) (id_param receiptId_param : string)
    (l1 : list ReceiptItem.t) (x : ReceiptItem.t) (l2 : list ReceiptItem.t) :
  _receiptItems s = l1 ++ x :: l2 ->
  has_id (parseInt id_param) x = true ->
  Forall (fun y => has_id (parseInt id_param) y = false) (l1 ++ l2) ->
  let s' := snd (delete_receipt_item id_param s) in
  let listed :=
    List.filter (of_receipt (parseInt receiptId_param)) (l1 ++ l2) in
  get_receipt_items receiptId_param s' = (json 200 (JReceiptItems listed), s')
  /\ Forall (fun y => has_id (parseInt id_param) y = false) listed.
Proof.
  intros Hitems Hx Hothers. cbv zeta.
  apply Forall_app in Hothers as Hsplit. destruct Hsplit as [H1 _].
  unfold delete_receipt_item, try_catch, bind, deleteReceiptItem.
  fold (has_id (parseInt id_param)).
  replace (findIndex (has_id (parseInt id_param)) (_receiptItems s))
    with (Some (length l1))
    by (rewrite Hitems; symmetry; apply findIndex_first; assumption).
  simpl. rewrite Hitems, delete_middle.
  unfold get_receipt_items, try_catch, bind, getReceiptItemsByReceiptId, ret.
  simpl. split; [reflexivity|].
  apply Forall_forall. intros y Hy.
  apply list_elem_of_In, List.filter_In in Hy as [Hy _].
  rewrite Forall_forall in Hothers. apply Hothers.
  apply list_elem_of_In. exact Hy.
Qed.

Lemma delete_then_list_witness :
  get_receipt_items "7" (snd (delete_receipt_item "5" store_items))
  = (json 200
       (JReceiptItems
          (List.filter (of_receipt (parseInt "7")) ([] ++ [item_bread]))),
     snd (delete_receipt_item "5" store_items))
  /\ Forall (fun y => has_id (parseInt "5") y = false)
            (List.filter (of_receipt (parseInt "7")) ([] ++ [item_bread])).
Proof.
  apply (delete_then_list store_items "5" "7" [] item_milk [item_bread]).
  - reflexivity.
  - reflexivity.
  - repeat constructor.
Defined.

(** The batch route on the two bodies at the edge: an empty array is
    answered 201 with an empty array and writes nothing; a body that is no
    array is handled as the array of that one body. *)
Theorem post_receipt_items_edge_bodies (env : Env) (s : Store)
    (receiptId_param : string) (r : Receipt.t) (req_body : value) :
  In r (_receipts s) ->
  strict_eq (Receipt.id r) (parseInt receiptId_param) = true ->
  post_receipt_items env receiptId_param (VArray []) s
  = (json 201 (JReceiptItems []), s)
  /\ ((forall l, req_body <> VArray l) ->
      post_receipt_items env receiptId_param req_body s
      = post_receipt_items env receiptId_param (VArray [req_body]) s).
Proof.
  intros Hin Hid.
  destruct (find_present
              (fun receipt =>
                 strict_eq (Receipt.id receipt) (parseInt receiptId_param))
              _ _ Hin Hid) as (y & Hfind & _).
  split.
  - unfold post_receipt_items, try_catch, bind, getReceiptById.
    rewrite Hfind. reflexivity.
  - intros Hnot. unfold post_receipt_items.
    destruct req_body; try reflexivity.
    exfalso. eapply Hnot. reflexivity.
Qed.

Lemma post_receipt_items_edge_bodies_witness :
  post_receipt_items env_sample "7" (VArray []) store_one
  = (json 201 (JReceiptItems []), store_one)
  /\ post_receipt_items env_sample "7" (item_body "Eggs" (3 # 1)) store_one
     = post_receipt_items env_sample "7"
         (VArray [item_body "Eggs" (3 # 1)]) store_one.
Proof.
  destruct (post_receipt_items_edge_bodies env_sample store_one "7" receipt_7
              (item_body "Eggs" (3 # 1)) (or_introl eq_refl) eq_refl)
    as [Hempty Hone].
  split; [exact Hempty|]. apply Hone. intros l H. discriminate H.
Defined.

(** ** The identifiers that [parseInt(nanoid())] gives *)

Lemma TrimStart_ascii (c : ascii) (r : string) :
  code c < 128 -> ws1 c = false -> TrimStart (String c r) = String c r.
Proof.
  intros Hlow Hws.
  assert (E : forall k, 128 <= k -> (code c =? k) = false)
    by (intros k Hk; apply Z.eqb_neq; lia).
  simpl. rewrite Hws. destruct r as [|c2 r2]; [reflexivity|].
  unfold ws2. rewrite (E 194) by lia. simpl.
  destruct r2 as [|c3 r3]; [reflexivity|].
  unfold ws3. rewrite (E 225), (E 226), (E 227), (E 239) by lia.
  reflexivity.
Qed.

Lemma digits_from (R : Z) (s : string) (a : Z) :
  exists z, digits R s (Some a) = Some z.
Proof.
  revert a. induction s as [|c r IH]; intros a; simpl; [eauto|].
  destruct (digit R c); [apply IH|eauto].
Qed.

Lemma to_double_number (z : Z) : isNaN (to_double z) = false.
Proof.
  unfold to_double. destruct (Z.abs z <? 2 ^ 53); [reflexivity|].
  cbv zeta. destruct (2 ^ 1024 <=? _); reflexivity.
Qed.

Lemma parseInt_letter (c : ascii) (r : string) :
  alpha c || (code c =? 95) = true -> parseInt (String c r) = NaN.
Proof.
  intros Hc. unfold parseInt.
  destruct c as [[] [] [] [] [] [] [] []]; try discriminate Hc;
    rewrite TrimStart_ascii by reflexivity; reflexivity.
Qed.

Lemma parseInt_nonzero_digit (c : ascii) (r : string) :
  between 49 57 c = true -> isNaN (parseInt (String c r)) = false.
Proof.
  intros Hc. unfold parseInt.
  destruct c as [[] [] [] [] [] [] [] []]; try discriminate Hc;
    rewrite TrimStart_ascii by reflexivity; cbv beta iota zeta;
    match goal with
    | |- context [digits 10 (String ?c r) None] =>
        let d := eval vm_compute in (digit 10 c) in
        match d with
        | Some ?v =>
            change (digits 10 (String c r) None)
              with (digits 10 r (Some v));
            destruct (digits_from 10 r v) as [z ->]
        end
    end; apply to_double_number.
Qed.

(** The id of a created record is decided by the first character of the
    drawn string: NaN when it is a letter or an underscore, a number when
    it is a digit from 1 to 9. This holds alike for users, receipts and
    items. *)
Theorem created_id_by_first_character (env : Env) (s : Store)
    (c : ascii) (rest : string)
    (user : UserData.t) (receipt : ReceiptData.t) (item : ReceiptItemData.t) :
  nanoid env (draws s) = String c rest ->
  exists u su r sr i si,
    createUser env user s = (inr u, su)
    /\ createReceipt env receipt s = (inr r, sr)
    /\ createReceiptItem env item s = (inr i, si)
    /\ User.id u = Receipt.id r /\ Receipt.id r = ReceiptItem.id i
    /\ (alpha c || (code c =? 95) = true -> Receipt.id r = NaN)
    /\ (between 49 57 c = true -> isNaN (Receipt.id r) = false).
Proof.
  intros Hdraw.
  rewrite createUser_run, createReceipt_run, createReceiptItem_run.
  cbv zeta. do 6 eexists.
  split; [reflexivity|]. split; [reflexivity|]. split; [reflexivity|].
  simpl. rewrite Hdraw. split; [reflexivity|]. split; [reflexivity|].
  split; intros Hc.
  - apply parseInt_letter. exact Hc.
  - apply parseInt_nonzero_digit. exact Hc.
Qed.

Lemma created_id_by_first_character_witness :
  exists u su r sr i si,
    createUser env_sample (UserData.mk "Ann" "ann@example.com") empty_store
    = (inr u, su)
    /\ createReceipt env_sample
         (ReceiptData.mk None "Walmart" 1699999999000 (of_Z 10)) empty_store
       = (inr r, sr)
    /\ createReceiptItem env_sample
         (ReceiptItemData.mk (of_Z 7) "Milk" (of_Z 3) (of_Z 1)) empty_store
       = (inr i, si)
    /\ User.id u = Receipt.id r /\ Receipt.id r = ReceiptItem.id i
    /\ (alpha "V" || (code "V" =? 95) = true -> Receipt.id r = NaN)
    /\ (between 49 57 "V" = true -> isNaN (Receipt.id r) = false).
Proof.
  apply (created_id_by_first_character env_sample empty_store "V"
           "1StGXR8_Z5jdHi6B-myT").
  reflexivity.
Defined.

(** ** Looking users up *)

Lemma find_snoc {A} (p : A -> bool) (l : list A) (x : A) :
  List.find p (l ++ [x])
  = match List.find p l with
    | Some y => Some y
    | None => if p x then Some x else None
    end.
Proof.
  induction l as [|a l IH]; simpl; [reflexivity|].
  destruct (p a); [reflexivity|exact IH].
Qed.

(** Lookup by email after a create finds the oldest user with that email:
    the new user only when no earlier one had it. *)
Theorem getUserByEmail_after_createUser (env : Env) (s : Store)
    (name email : string) :
  exists u s',
    createUser env (UserData.mk name email) s = (inr u, s')
    /\ getUserByEmail email s'
       = (inr (Some match fst (getUserByEmail email s) with
                    | inr (Some older) => older
                    | _ => u
                    end), s').
Proof.
  rewrite createUser_run. cbv zeta. do 2 eexists. split; [reflexivity|].
  unfold getUserByEmail. simpl. rewrite find_snoc. simpl.
  rewrite String.eqb_refl.
  destruct (List.find _ (_users s)); reflexivity.
Qed.

(** GET /api/users/:id never writes. It answers 200 with a stored user
    whose id is [===] the parsed parameter, hence no NaN, or else 404 when
    no stored user has that id. *)
Theorem get_user_outcomes (s : Store) (id_param : string) :
  snd (get_user id_param s) = s
  /\ ((exists u,
         fst (get_user id_param s) = json 200 (JUser u)
         /\ In u (_users s)
         /\ strict_eq (User.id u) (parseInt id_param) = true
         /\ isNaN (User.id u) = false)
      \/ (fst (get_user id_param s) = json 404 (JError "User not found")
          /\ forall u, In u (_users s) ->
                       strict_eq (User.id u) (parseInt id_param) = false)).
Proof.
  unfold get_user, try_catch, bind, getUserById.
  destruct (List.find _ (_users s)) as [u|] eqn:Hfind; simpl.
  - split; [reflexivity|]. left. exists u.
    apply find_some in Hfind as [Hin Hid].
    repeat split; auto.
    destruct (User.id u); simpl in *; congruence.
  - split; [reflexivity|]. right. split; [reflexivity|].
    intros u Hu. exact (find_none _ _ Hfind u Hu).
Qed.

(** ** Receipts and their owners *)

(** An owner that passed the schema is a number other than NaN. *)
Lemma ReceiptSchema_owner_number (req_body : value) (data : ReceiptData.t)
    (u : number) :
  ReceiptSchema_omit req_body = inr data ->
  ReceiptData.userId data = Some u ->
  isNaN u = false.
Proof.
  unfold ReceiptSchema_omit, z_object.
  destruct req_body as [| | | | | | |o]; try discriminate.
  unfold z_nullable at 1.
  destruct (get o "userId") as [| | |n| | | |]; simpl;
    try (destruct (isNaN n) eqn:Hn);
    destruct (z_string _ _), (z_date _ _), (z_number _ _); simpl;
    intros H; try discriminate H; injection H as <-; simpl;
    intros Hu; try discriminate Hu.
  injection Hu as <-. exact Hn.
Qed.

(** POST /api/receipts does not look the owner up. In every store, a valid
    payload with owner [u] is stored and from then on closes the list of
    [u]'s receipts; a valid payload with the owner [null] is stored and
    shows in the list of all receipts but in no user's list. *)
Theorem post_receipts_owner (env : Env) (s : Store) (req_body : value)
    (data : ReceiptData.t) (userId : number) :
  ReceiptSchema_omit req_body = inr data ->
  exists r s',
    post_receipts env req_body s = (json 201 (JReceipt r), s')
    /\ getAllReceipts s' = (inr (_receipts s ++ [r]), s')
    /\ (ReceiptData.userId data = Some userId ->
        getReceiptsByUserId userId s'
        = (inr (match fst (getReceiptsByUserId userId s) with
                | inr l => l ++ [r]
                | inl _ => [r]
                end), s'))
    /\ (ReceiptData.userId data = None ->
        fst (getReceiptsByUserId userId s')
        = fst (getReceiptsByUserId userId s)).
Proof.
  intros Hvalid.
  unfold post_receipts, try_catch, bind at 1, parse. rewrite Hvalid.
  unfold ret at 1, bind at 1. rewrite createReceipt_run. cbv zeta.
  do 2 eexists. split; [reflexivity|]. split; [reflexivity|].
  unfold getReceiptsByUserId. simpl. rewrite List.filter_app. simpl.
  split; intros Hu; rewrite Hu.
  - rewrite (strict_eq_refl userId
               (ReceiptSchema_owner_number _ _ _ Hvalid Hu)).
    reflexivity.
  - rewrite app_nil_r. reflexivity.
Qed.

Lemma post_receipts_owner_witness :
  exists r s',
    post_receipts env_sample receipt_body store_one
    = (json 201 (JReceipt r), s')
    /\ getAllReceipts s' = (inr (_receipts store_one ++ [r]), s')
    /\ (ReceiptData.userId
          (ReceiptData.mk None "Walmart" 1699999999000 (Fin (85 # 2)))
        = Some (of_Z 3) ->
        getReceiptsByUserId (of_Z 3) s'
        = (inr (match fst (getReceiptsByUserId (of_Z 3) store_one) with
                | inr l => l ++ [r]
                | inl _ => [r]
                end), s'))
    /\ (ReceiptData.userId
          (ReceiptData.mk None "Walmart" 1699999999000 (Fin (85 # 2)))
        = None ->
        fst (getReceiptsByUserId (of_Z 3) s')
        = fst (getReceiptsByUserId (of_Z 3) store_one)).
Proof.
  apply (post_receipts_owner env_sample store_one receipt_body
           (ReceiptData.mk None "Walmart" 1699999999000 (Fin (85 # 2)))
           (of_Z 3)).
  reflexivity.
Defined.

(** ** More on the product helper *)

Lemma split_trailing (sep : ascii) (p : string) :
  exists front,
    split sep (p +:+ String sep EmptyString) = front ++ [EmptyString]
    /\ front <> [].
Proof.
  induction p as [|c r (front & Hsplit & Hfront)]; simpl.
  - rewrite Ascii.eqb_refl. exists [EmptyString]. split; [reflexivity|].
    discriminate.
  - destruct (Ascii.eqb c sep).
    + exists (EmptyString :: front). simpl in Hsplit. rewrite Hsplit.
      split; [reflexivity|discriminate].
    + simpl in Hsplit. rewrite Hsplit.
      destruct front as [|a f]; [contradiction|].
      exists (String c a :: f). split; [reflexivity|discriminate].
Qed.

(** A pathname that ends in a slash has an empty last segment, so the
    helper returns the empty name for it. *)
Theorem parseProductFromUrl_trailing_slash
    (URL_pathname : string -> option string) (url p : string) :
  URL_pathname url = Some (p +:+ "/") ->
  parseProductFromUrl URL_pathname url = inr (ProductInfo.mk "" "0.00").
Proof.
  intros Hpath. unfold parseProductFromUrl. rewrite Hpath.
  destruct (split_trailing "/" p) as (front & -> & _).
  rewrite List.last_last. reflexivity.
Qed.

Lemma parseProductFromUrl_trailing_slash_witness :
  parseProductFromUrl plain_pathname
    "https://example.com/store/cool-blue-widget/"
  = inr (ProductInfo.mk "" "0.00").
Proof.
  apply (parseProductFromUrl_trailing_slash plain_pathname
           "https://example.com/store/cool-blue-widget/"
           "/store/cool-blue-widget").
  reflexivity.
Defined.

Lemma label_char_clean (c : ascii) (b : bool) :
  negb (Ascii.eqb c "/") = true ->
  let c' := if Ascii.eqb c "-" then " "%char else c in
  let d := if word_char c' && b then toUpperCase c' else c' in
  negb (Ascii.eqb d "-") && negb (Ascii.eqb d "/") = true.
Proof.
  destruct c as [[] [] [] [] [] [] [] []]; destruct b; intros H;
    try discriminate H; reflexivity.
Qed.

Lemma label_clean (seg : string) :
  all_chars (fun c => negb (Ascii.eqb c "/")) seg = true ->
  forall after_word,
    all_chars (fun c => negb (Ascii.eqb c "-") && negb (Ascii.eqb c "/"))
      (replace_word_starts after_word (replace_hyphens seg)) = true.
Proof.
  induction seg as [|c r IH]; simpl; intros Hseg after_word;
    [reflexivity|].
  apply andb_prop in Hseg as [Hc Hr].
  rewrite (label_char_clean c (negb after_word) Hc). apply IH. exact Hr.
Qed.

(** The helper fails exactly when the [URL] constructor throws, and then
    with the error "Failed to parse product URL"; otherwise it returns a
    product whose price is "0.00" and whose name holds neither a hyphen nor
    a slash. *)
Theorem parseProductFromUrl_name_clean
    (URL_pathname : string -> option string) (url : string) :
  (URL_pathname url = None
   <-> exists e, parseProductFromUrl URL_pathname url = inl e)
  /\ (URL_pathname url = None ->
      parseProductFromUrl URL_pathname url
      = inl (Error "Failed to parse product URL"))
  /\ (forall pathname,
        URL_pathname url = Some pathname ->
        exists name,
          parseProductFromUrl URL_pathname url
          = inr (ProductInfo.mk name "0.00")
          /\ all_chars
               (fun c => negb (Ascii.eqb c "-") && negb (Ascii.eqb c "/"))
               name = true).
Proof.
  unfold parseProductFromUrl. split; [|split].
  - destruct (URL_pathname url) as [pathname|]; split.
    + discriminate.
    + intros [e He]. discriminate He.
    + eauto.
    + reflexivity.
  - intros ->. reflexivity.
  - intros pathname ->. eexists. split; [reflexivity|].
    apply label_clean. apply (split_last_segment "/" pathname).
Qed.

Lemma parseProductFromUrl_name_clean_witness :
  parseProductFromUrl plain_pathname "not a url"
  = inl (Error "Failed to parse product URL")
  /\ exists name,
       parseProductFromUrl plain_pathname
         "https://example.com/store/cool-blue-widget"
       = inr (ProductInfo.mk name "0.00")
       /\ all_chars
            (fun c => negb (Ascii.eqb c "-") && negb (Ascii.eqb c "/"))
            name = true.
Proof.
  split.
  - apply (proj1 (proj2 (parseProductFromUrl_name_clean plain_pathname
                           "not a url"))).
    reflexivity.
  - apply (proj2 (proj2 (parseProductFromUrl_name_clean plain_pathname
                           "https://example.com/store/cool-blue-widget"))
             "/store/cool-blue-widget").
    reflexivity.
Defined.

(** POST /fetch-product answers 200 with the product exactly when the body
    is an object whose [url] is a string that the [URL] constructor
    accepts: the price is "0.00" and the name is the label of the last
    segment of the URL's pathname. For every other body it answers 400 with
    the message of the validation error. The helper's own failure never
    reaches the client, since the schema has already accepted the URL. *)
Theorem fetch_product_outcomes (URL_pathname : string -> option string)
    (parse_error_message : value -> string) (req_body : value) :
  (forall o url pathname,
     req_body = VObject o ->
     get o "url" = VString url ->
     URL_pathname url = Some pathname ->
     exists seg name,
       fetch_product URL_pathname parse_error_message req_body
       = {| product_status := 200;
            product_body := inr (ProductInfo.mk name "0.00") |}
       /\ last_segment pathname seg
       /\ is_label false seg name)
  /\ ((forall o url,
         req_body = VObject o ->
         get o "url" = VString url ->
         URL_pathname url = None) ->
      fetch_product URL_pathname parse_error_message req_body
      = {| product_status := 400;
           product_body := inl (parse_error_message req_body) |}).
Proof.
  split.
  - intros o url pathname -> Hurl Hpath.
    unfold fetch_product, fetchProductSchema, parseProductFromUrl.
    rewrite Hurl, Hpath. cbv beta iota. rewrite Hpath.
    exists (List.last (split "/" pathname) EmptyString). eexists.
    split; [reflexivity|]. split.
    + destruct (split_last_segment "/" pathname) as [Hseg Hcases].
      split; [exact Hseg|].
      destruct Hcases as [[_ Heq]|[Hpre _]];
        [left; exact Heq|right; exact Hpre].
    + apply replace_is_label.
  - intros Hbad. unfold fetch_product, fetchProductSchema.
    destruct req_body as [| | | | | | |o]; try reflexivity.
    destruct (get o "url") as [| | | |url| | |] eqn:Hurl; try reflexivity.
    rewrite (Hbad o url eq_refl Hurl). reflexivity.
Qed.

Lemma fetch_product_outcomes_witness :
  (exists seg name,
     fetch_product plain_pathname (fun _ => "Invalid url")
       (VObject (<["url" :=
                   VString "https://example.com/store/cool-blue-widget"]> ∅))
     = {| product_status := 200;
          product_body := inr (ProductInfo.mk name "0.00") |}
     /\ last_segment "/store/cool-blue-widget" seg
     /\ is_label false seg name)
  /\ fetch_product plain_pathname (fun _ => "Invalid url")
       (VObject (<["url" := VString "not a url"]> ∅))
     = {| product_status := 400; product_body := inl "Invalid url" |}.
Proof.
  split.
  - apply (proj1 (fetch_product_outcomes plain_pathname
                    (fun _ => "Invalid url")
                    (VObject (<["url" :=
                       VString "https://example.com/store/cool-blue-widget"]>
                       ∅)))
             (<["url" :=
                VString "https://example.com/store/cool-blue-widget"]> ∅)
             "https://example.com/store/cool-blue-widget"
             "/store/cool-blue-widget"); reflexivity.
  - apply (proj2 (fetch_product_outcomes plain_pathname
                    (fun _ => "Invalid url")
                    (VObject (<["url" := VString "not a url"]> ∅)))).
    intros o url Ho Hurl. injection Ho as <-.
    vm_compute in Hurl. injection Hurl as <-. reflexivity.
Defined.

(** ** What the batch route's schema lets through *)

Lemma last_char_cons (c d : ascii) (s : string) :
  last_char s = Some d -> last_char (String c s) = Some d.
Proof.
  unfold last_char. simpl.
  destruct (map Some (list_ascii_of_string s)); [discriminate|auto].
Qed.

Lemma pretty_N_char_digit (x : N) : between 48 57 (pretty_N_char x) = true.
Proof.
  unfold pretty_N_char. repeat case_match; reflexivity.
Qed.

Lemma pretty_N_go_last (x : N) :
  forall s d, last_char s = Some d -> last_char (pretty_N_go x s) = Some d.
Proof.
  induction (N.lt_wf_0 x) as [x _ IH]; intros s d Hs.
  destruct (decide (x = 0)%N) as [->|Hx].
  - rewrite pretty_N_go_0. exact Hs.
  - rewrite pretty_N_go_step by lia. apply IH.
    + apply N.div_lt; lia.
    + apply last_char_cons. exact Hs.
Qed.

(** An array index, written out, ends in a digit. *)
Lemma index_key_last (i : nat) :
  exists d, last_char (index_key i) = Some d /\ between 48 57 d = true.
Proof.
  unfold index_key, pretty, pretty_nat, pretty, pretty_N.
  destruct (decide (N.of_nat i = 0)%N) as [_|Hi].
  - exists "0"%char. split; reflexivity.
  - rewrite pretty_N_go_step by lia.
    eexists. split; [|apply pretty_N_char_digit].
    apply pretty_N_go_last. reflexivity.
Qed.

(** The indexed properties of an array or of a string hold no key that
    ends in something else than a digit. *)
Lemma indexed_no_key (l : list value) (key : string) (d : ascii) :
  last_char key = Some d -> between 48 57 d = false ->
  get (indexed l) key = VUndefined.
Proof.
  intros Hlast Hd. unfold get, indexed.
  rewrite not_elem_of_list_to_map_1; [reflexivity|].
  intros Hin. apply list_elem_of_fmap in Hin as ([k v] & -> & Hin).
  apply elem_of_lookup_imap_1 in Hin as (i & y & Heq & _).
  injection Heq as -> ->. simpl in Hlast.
  destruct (index_key_last i) as (d' & Hd' & Hdigit). congruence.
Qed.

Lemma own_props_keys (item : value) (key : string) (d : ascii) :
  (forall o, item <> VObject o) ->
  last_char key = Some d -> between 48 57 d = false ->
  get (own_props item) key = VUndefined.
Proof.
  intros Hobj Hlast Hd.
  destruct item; simpl; try reflexivity.
  - eapply indexed_no_key; eassumption.
  - eapply indexed_no_key; eassumption.
  - exfalso. eapply Hobj. reflexivity.
Qed.

(** The batch route stores an item for a payload exactly when the payload
    is valid: an object with a string [name] and numbers other than NaN as
    [price] and [quantity]. Every other value, whether a defective object,
    an array, a string, a number or [null], fails the schema. *)
Theorem batch_schema_accepts_exactly (receiptId : number) (item : value) :
  isNaN receiptId = false ->
  (exists data,
     ReceiptItemSchema_omit
       (VObject (<["receiptId" := VNumber receiptId]> (own_props item)))
     = inr data)
  <-> valid_item item = true.
Proof.
  intros Hrid. split.
  - intros [data Hparse].
    destruct (valid_item item) eqn:Hvalid; [reflexivity|exfalso].
    revert Hparse. unfold ReceiptItemSchema_omit, z_object.
    rewrite (get_insert_ne _ "receiptId" "name"),
      (get_insert_ne _ "receiptId" "price"),
      (get_insert_ne _ "receiptId" "quantity") by discriminate.
    assert (Hcases :
      (exists o, item = VObject o)
      \/ get (own_props item) "name" = VUndefined).
    { destruct item; try (right; reflexivity); try solve [left; eauto];
        right; eapply indexed_no_key; reflexivity. }
    destruct Hcases as [[o ->]|Hname].
    + simpl in Hvalid. simpl own_props.
      generalize (z_number ["receiptId"]
                    (get (<["receiptId" := VNumber receiptId]> o)
                       "receiptId")).
      intros R H.
      destruct (get o "name"), (get o "price") as [| | |p| | | |],
        (get o "quantity") as [| | |q| | | |];
        simpl in Hvalid, H;
        repeat match goal with
               | _ : context [isNaN ?n] |- _ => destruct (isNaN n)
               end;
        simpl in Hvalid, H; try discriminate Hvalid;
        destruct R; simpl in H; discriminate H.
    + rewrite Hname. simpl.
      destruct (z_number ["receiptId"] _), (z_number ["price"] _),
        (z_number ["quantity"] _); simpl; intros H; discriminate H.
  - intros Hvalid. eexists. apply (parse_valid_item _ _ Hrid Hvalid).
Qed.

Lemma batch_schema_accepts_exactly_witness :
  (exists data,
     ReceiptItemSchema_omit
       (VObject (<["receiptId" := VNumber (of_Z 7)]>
                   (own_props (VString "Milk"))))
     = inr data)
  <-> valid_item (VString "Milk") = true.
Proof.
  apply (batch_schema_accepts_exactly (of_Z 7) (VString "Milk")).
  reflexivity.
Defined.

(** ** What the routes leave alone *)

(** Stored records are never changed: each create route, whatever the
    body and the answer, keeps the three sequences as they were and at most
    appends to its own; the GET routes write nothing. *)
Theorem routes_only_append (env : Env) (isEmail : string -> bool)
    (s : Store) (param : string) (req_body : value) :
  (exists rs,
     _receipts (snd (post_receipts env req_body s)) = _receipts s ++ rs
     /\ _users (snd (post_receipts env req_body s)) = _users s
     /\ _receiptItems (snd (post_receipts env req_body s))
        = _receiptItems s)
  /\ (exists us,
        _users (snd (post_users env isEmail req_body s)) = _users s ++ us
        /\ _receipts (snd (post_users env isEmail req_body s)) = _receipts s
        /\ _receiptItems (snd (post_users env isEmail req_body s))
           = _receiptItems s)
  /\ (exists items,
        _receiptItems (snd (post_receipt_item env req_body s))
        = _receiptItems s ++ items
        /\ _users (snd (post_receipt_item env req_body s)) = _users s
        /\ _receipts (snd (post_receipt_item env req_body s)) = _receipts s)
  /\ (exists items,
        _receiptItems (snd (post_receipt_items env param req_body s))
        = _receiptItems s ++ items
        /\ _users (snd (post_receipt_items env param req_body s)) = _users s
        /\ _receipts (snd (post_receipt_items env param req_body s))
           = _receipts s)
  /\ snd (get_receipt param s) = s
  /\ snd (get_user param s) = s
  /\ snd (get_receipt_items param s) = s.
Proof.
  split; [|split; [|split; [|split; [|split; [|split]]]]].
  - unfold post_receipts, try_catch, parse.
    cbv [createReceipt bind ret throw parseInt_nanoid new_Date push_receipt].
    destruct (ReceiptSchema_omit req_body) as [issues|data]; simpl.
    + exists []. rewrite app_nil_r. repeat split.
    + eexists. repeat split.
  - unfold post_users, try_catch, parse.
    cbv [createUser bind ret throw parseInt_nanoid new_Date push_user].
    destruct (UserSchema_omit isEmail req_body) as [issues|data]; simpl.
    + exists []. rewrite app_nil_r. repeat split.
    + eexists. repeat split.
  - unfold post_receipt_item, try_catch, parse.
    cbv [createReceiptItem bind ret throw parseInt_nanoid new_Date
         push_receiptItem].
    destruct (ReceiptItemSchema_omit req_body) as [issues|data]; simpl.
    + exists []. rewrite app_nil_r. repeat split.
    + eexists. repeat split.
  - unfold post_receipt_items, try_catch, getReceiptById.
    cbv [bind ret].
    destruct (List.find _ (_receipts s)) as [r|].
    + match goal with
      | |- context [create_items env ?rid ?items ?acc s] =>
          destruct (create_items_any env rid items acc s)
            as (extra & Hitems & _ & Hu & Hr & _);
          destruct (create_items env rid items acc s) as [[e|l] s']
      end; simpl in *; exists extra; auto.
    + exists []. rewrite app_nil_r. repeat split.
  - unfold get_receipt, try_catch, bind, getReceiptById.
    destruct (List.find _ (_receipts s)); reflexivity.
  - unfold get_user, try_catch, bind, getUserById.
    destruct (List.find _ (_users s)); reflexivity.
  - reflexivity.
Qed.

(** ** Instances of the conditional facts above *)

Lemma post_receipts_then_get_fresh_witness :
  post_receipts env_digit receipt_body empty_store
  = (json 201 (JReceipt receipt_7),
     snd (post_receipts env_digit receipt_body empty_store))
  /\ get_receipt "7" (snd (post_receipts env_digit receipt_body empty_store))
     = (json 200 (JReceipt receipt_7),
        snd (post_receipts env_digit receipt_body empty_store)).
Proof.
  apply (post_receipts_then_get_fresh env_digit empty_store receipt_body
           (ReceiptData.mk None "Walmart" 1699999999000 (Fin (85 # 2)))
           "7").
  - reflexivity.
  - intros r [].
  - reflexivity.
Defined.

Lemma post_receipts_NaN_unreadable_witness :
  fst (get_receipt "7"
         (snd (post_receipts env_sample receipt_body store_one)))
  = fst (get_receipt "7" store_one).
Proof.
  apply (post_receipts_NaN_unreadable env_sample store_one receipt_body
           (ReceiptData.mk None "Walmart" 1699999999000 (Fin (85 # 2)))
           "7").
  - reflexivity.
  - reflexivity.
Defined.

Lemma label_of_slug_witness :
  replace_word_starts false (replace_hyphens "cool-blue-widget")
  = join " " (map capitalize (split "-" "cool-blue-widget")).
Proof.
  apply (label_of_slug "cool-blue-widget"). reflexivity.
Defined.

(** ** Receipts over JSON *)

(** POST /api/receipts refuses every body whose [date] is not a [Date]
    object, hence every body parsed from JSON: the answer is 400 with the
    message of the validation issues and the store is unchanged. *)
Theorem post_receipts_rejects_json (env : Env) (s : Store)
    (req_body : value) :
  date_is_Date req_body = false ->
  exists issues,
    issues <> []
    /\ post_receipts env req_body s
       = (json 400 (JMessage (fromZodError issues)), s).
Proof.
  intros Hjson.
  assert (Hbad : exists issues,
            issues <> [] /\ ReceiptSchema_omit req_body = inl issues).
  { unfold ReceiptSchema_omit, z_object.
    destruct req_body as [| | | | | | |o];
      try (eexists; split; [|reflexivity]; discriminate).
    simpl in Hjson.
    assert (Hdate : exists i, z_date ["date"] (get o "date") = inl [i]).
    { destruct (get o "date"); try discriminate Hjson;
        eexists; reflexivity. }
    destruct Hdate as [i ->].
    destruct (z_nullable z_number ["userId"] _) as [e1|?],
      (z_string ["storeName"] _) as [e2|?],
      (z_number ["total"] _) as [e4|?]; simpl;
      eexists; (split; [|reflexivity]);
      intros Hnil; repeat (apply app_eq_nil in Hnil as [? Hnil]);
      try discriminate; subst;
      try match goal with H : _ ++ [_] = [] |- _ =>
            apply app_eq_nil in H as [_ H]; discriminate H end.
  }
  destruct Hbad as (issues & Hne & Hbad). exists issues.
  split; [exact Hne|].
  unfold post_receipts, try_catch, bind, parse. rewrite Hbad. reflexivity.
Qed.

Lemma post_receipts_rejects_json_witness :
  exists issues,
    issues <> []
    /\ post_receipts env_digit receipt_json store_one
       = (json 400 (JMessage (fromZodError issues)), store_one).
Proof.
  apply (post_receipts_rejects_json env_digit store_one receipt_json).
  reflexivity.
Defined.
